(** * Temple-run game engine: a shallow embedding of [game.service.ts]
      and of the frame driver of [game.component.ts].

    Modelling conventions.

    - A JavaScript [number] is a rational ([Q]); arithmetic is exact, so
      rounding of IEEE doubles is outside this development, with one
      exception: the [progress] counter of the lane-change animation is an
      IEEE double ([PrimFloat.float]), because its rounding decides a branch
      (ten additions of 0.1 stay below 1).  For the [jumpProgress] counter
      the double and the rational take the same branch at every step
      (lemma [jumpProgress_in_doubles]), so it stays a rational.
      Integer-valued numbers that index arrays ([playerLane],
      [obstacleLane]) are [Z].
    - [Math.random()] is a stream [random : nat -> Q] read through a cursor
      kept in the state ([randomCalls]); [Math.sin (p * Math.PI)] is the
      parameter [sinPi].  Both are section variables.
    - [requestAnimationFrame] is a queue of defunctionalised closures
      ([frameRequests]); one display refresh runs the queue once
      ([GameComponent.frame]).
    - The THREE.js scene graph, meshes, materials, lights and the renderer
      carry no decision of the game logic and are left out; an [Object3D]
      keeps its position, the kind of mesh and the rotation about z that
      [updateGame] adds to it. *)

From Stdlib Require Import QArith Qabs Qround ZArith String List Sorted Bool Lqa Lia.
From Stdlib Require Import PrimFloat.
From Stdlib Require FloatOps SpecFloat.
Import ListNotations.

Set Warnings "-inexact-float".

Local Open Scope Q_scope.

(** ** Numbers *)

(** [a < b] on numbers, as a boolean. *)
Definition Qltb (a b : Q) : bool := negb (Qle_bool b a).

(** The rational a finite IEEE double stands for. *)
Definition doubleValue (f : PrimFloat.float) : Q :=
  match FloatOps.Prim2SF f with
  | SpecFloat.S754_finite sign m e =>
      let n := if sign then Zneg m else Zpos m in
      match e with
      | Z0 => n # 1
      | Zpos p => (n * Z.pow_pos 2 p) # 1
      | Zneg p => n # (Pos.pow 2 p)
      end
  | _ => 0
  end.

(** ** Data model *)

Module Vector3.
Record t : Type := mk { x : Q; y : Q; z : Q }.

Definition set_x (v : Q) (p : t) : t := mk v (y p) (z p).
Definition set_y (v : Q) (p : t) : t := mk (x p) v (z p).
Definition set_z (v : Q) (p : t) : t := mk (x p) (y p) v.
End Vector3.

(** The mesh built by [createObstacle] (obstacleType 0, 1, 2) or by
    [createCoin]. *)
Inductive ObjectKind : Type := Rock | Log | Statue | Coin.

Record Object3D : Type := mkObject3D {
  kind : ObjectKind;
  position : Vector3.t;
  rotationZ : Q  (* rotation.z added since the mesh was created *)
}.

(** [interface GameState]. *)
Record GameState : Type := mkGameState {
  isGameOver : bool;
  isGameActive : bool
}.

(** The phases of the run, read off the two flags the way the guards of
    [handleKeyDown] and [updateGame] read them. *)
Inductive Phase : Type := Idle | Active | GameOver.

Definition phaseOf (g : GameState) : Phase :=
  if isGameOver g then GameOver
  else if isGameActive g then Active else Idle.

(** A closure handed to [requestAnimationFrame], with the variables it
    captured. *)
Inductive FrameCallback : Type :=
| AnimateLaneChange (startX targetX : Q) (progress : PrimFloat.float)
| AnimateJump (initialY jumpProgress : Q)
| Animate.

(** The fields of [class GameService] that the game logic reads or writes,
    the position of the [player] group, and the two pieces of the host
    environment the service talks to: the cursor into the random stream and
    the animation-frame queue. *)
Record GameService : Type := mkGameService {
  player : Vector3.t;
  obstacles : list Object3D;
  coins : list Object3D;
  score : Q;
  gameState : GameState;
  playerLane : Z;
  isJumping : bool;
  speed : Q;
  trackPosition : Q;
  randomCalls : nat;
  frameHandle : nat;
  frameRequests : list FrameCallback
}.

Definition lanes : list Q := [-2; 0; 2].
Definition trackLength : Q := 500.

(** [this.lanes[i]]; every index the code uses is clamped to 0..2 or is
    [Math.floor (Math.random() * 3)]. *)
Definition lanes_at (i : Z) : Q := nth (Z.to_nat i) lanes 0.

Definition set_player (v : Vector3.t) (s : GameService) : GameService :=
  mkGameService v (obstacles s) (coins s) (score s) (gameState s)
    (playerLane s) (isJumping s) (speed s) (trackPosition s)
    (randomCalls s) (frameHandle s) (frameRequests s).

Definition set_obstacles (v : list Object3D) (s : GameService) : GameService :=
  mkGameService (player s) v (coins s) (score s) (gameState s)
    (playerLane s) (isJumping s) (speed s) (trackPosition s)
    (randomCalls s) (frameHandle s) (frameRequests s).

Definition set_coins (v : list Object3D) (s : GameService) : GameService :=
  mkGameService (player s) (obstacles s) v (score s) (gameState s)
    (playerLane s) (isJumping s) (speed s) (trackPosition s)
    (randomCalls s) (frameHandle s) (frameRequests s).

Definition set_score (v : Q) (s : GameService) : GameService :=
  mkGameService (player s) (obstacles s) (coins s) v (gameState s)
    (playerLane s) (isJumping s) (speed s) (trackPosition s)
    (randomCalls s) (frameHandle s) (frameRequests s).

Definition set_gameState (v : GameState) (s : GameService) : GameService :=
  mkGameService (player s) (obstacles s) (coins s) (score s) v
    (playerLane s) (isJumping s) (speed s) (trackPosition s)
    (randomCalls s) (frameHandle s) (frameRequests s).

Definition set_playerLane (v : Z) (s : GameService) : GameService :=
  mkGameService (player s) (obstacles s) (coins s) (score s) (gameState s)
    v (isJumping s) (speed s) (trackPosition s)
    (randomCalls s) (frameHandle s) (frameRequests s).

Definition set_isJumping (v : bool) (s : GameService) : GameService :=
  mkGameService (player s) (obstacles s) (coins s) (score s) (gameState s)
    (playerLane s) v (speed s) (trackPosition s)
    (randomCalls s) (frameHandle s) (frameRequests s).

Definition set_speed (v : Q) (s : GameService) : GameService :=
  mkGameService (player s) (obstacles s) (coins s) (score s) (gameState s)
    (playerLane s) (isJumping s) v (trackPosition s)
    (randomCalls s) (frameHandle s) (frameRequests s).

Definition set_trackPosition (v : Q) (s : GameService) : GameService :=
  mkGameService (player s) (obstacles s) (coins s) (score s) (gameState s)
    (playerLane s) (isJumping s) (speed s) v
    (randomCalls s) (frameHandle s) (frameRequests s).

Definition set_randomCalls (v : nat) (s : GameService) : GameService :=
  mkGameService (player s) (obstacles s) (coins s) (score s) (gameState s)
    (playerLane s) (isJumping s) (speed s) (trackPosition s)
    v (frameHandle s) (frameRequests s).

Definition set_frameHandle (v : nat) (s : GameService) : GameService :=
  mkGameService (player s) (obstacles s) (coins s) (score s) (gameState s)
    (playerLane s) (isJumping s) (speed s) (trackPosition s)
    (randomCalls s) v (frameRequests s).

Definition set_frameRequests (v : list FrameCallback) (s : GameService)
  : GameService :=
  mkGameService (player s) (obstacles s) (coins s) (score s) (gameState s)
    (playerLane s) (isJumping s) (speed s) (trackPosition s)
    (randomCalls s) (frameHandle s) v.

Definition phase (s : GameService) : Phase := phaseOf (gameState s).

(** [requestAnimationFrame cb]: the callback joins the queue of the next
    refresh and a fresh non-zero handle is returned. *)
Definition requestAnimationFrame (cb : FrameCallback) (s : GameService)
  : nat * GameService :=
  let h := S (frameHandle s) in
  (h, set_frameRequests (frameRequests s ++ [cb]) (set_frameHandle h s)).

(** ** Geometry: [isPlayerColliding] *)

Definition playerHeight (s : GameService) : Q :=
  if isJumping s then 0 else 1.5.

Definition xCollision (s : GameService) (object : Object3D) : bool :=
  Qltb (Qabs (Vector3.x (player s) - Vector3.x (position object)))
       ((0.7 + 0.8) / 2).

Definition zCollision (s : GameService) (object : Object3D) : bool :=
  Qltb (Qabs (Vector3.z (player s) - Vector3.z (position object)))
       ((0.5 + 0.8) / 2).

Definition yCollision (s : GameService) (object : Object3D) : bool :=
  Qltb (Qabs (Vector3.y (player s) - Vector3.y (position object)))
       ((playerHeight s + 1) / 2).

Definition isPlayerColliding (s : GameService) (object : Object3D) : bool :=
  xCollision s object && zCollision s object && yCollision s object.

(** ** Run state *)

Definition increaseScore (amount : Q) (s : GameService) : GameService :=
  set_score (score s + amount) s.

Definition gameOver (s : GameService) : GameService :=
  set_gameState (mkGameState true false) s.

Definition startGame (s : GameService) : GameService :=
  set_gameState (mkGameState false true) (set_score 0 s).

(** ** Per-frame entity updates (the two loops of [updateGame]) *)

Definition advance (dz : Q) (o : Object3D) : Object3D :=
  mkObject3D (kind o)
    (Vector3.set_z (Vector3.z (position o) + dz) (position o))
    (rotationZ o).

Definition spin (o : Object3D) : Object3D :=
  mkObject3D (kind o) (position o) (rotationZ o + 0.05).

(** [this.obstacles.forEach]: each obstacle moves by the current speed and a
    hit calls [gameOver]; the loop goes on after a hit. *)
Fixpoint moveObstacles (os : list Object3D) (s : GameService)
  : list Object3D * GameService :=
  match os with
  | [] => ([], s)
  | o :: rest =>
      let o' := advance (speed s) o in
      let s1 := if isPlayerColliding s o' then gameOver s else s in
      let '(rest', s2) := moveObstacles rest s1 in
      (o' :: rest', s2)
  end.

Definition updateObstacles (s : GameService) : GameService :=
  let '(moved, s1) := moveObstacles (obstacles s) s in set_obstacles moved s1.

(** The coin loop runs from the last index down to 0; [splice (i, 1)] only
    shifts indices above [i], which were visited already.  The result is
    the list of coins kept, in their order. *)
Fixpoint moveCoins (cs : list Object3D) (s : GameService)
  : list Object3D * GameService :=
  match cs with
  | [] => ([], s)
  | c :: rest =>
      let '(kept, s1) := moveCoins rest s in
      let c' := spin (advance (speed s1) c) in
      if isPlayerColliding s1 c'
      then (kept, increaseScore 10 s1)
      else (c' :: kept, s1)
  end.

Definition updateCoins (s : GameService) : GameService :=
  let '(kept, s1) := moveCoins (coins s) s in set_coins kept s1.

(** ** Player motion *)

(** One call of the closure [animateLaneChange].  [progress] is the double
    the closure holds; the position written is exact in the rational that
    double stands for. *)
Definition animateLaneChange (startX targetX : Q) (progress : PrimFloat.float)
  (s : GameService) : GameService :=
  let progress := PrimFloat.add progress 0.1%float in
  if PrimFloat.ltb progress 1%float then
    let s := set_player
               (Vector3.set_x
                  (startX + (targetX - startX) * doubleValue progress)
                  (player s)) s in
    snd (requestAnimationFrame (AnimateLaneChange startX targetX progress) s)
  else
    set_player (Vector3.set_x targetX (player s)) s.

Definition moveLanes (direction : Z) (s : GameService) : GameService :=
  let newLane := Z.max 0 (Z.min 2 (playerLane s + direction)) in
  if negb (newLane =? playerLane s)%Z then
    let s := set_playerLane newLane s in
    let targetX := lanes_at (playerLane s) in
    let startX := Vector3.x (player s) in
    animateLaneChange startX targetX 0%float s
  else s.

Section Environment.

(** [random n] is the value of the (n+1)-th call of [Math.random()];
    [sinPi p] is [Math.sin (p * Math.PI)]. *)
Variable random : nat -> Q.
Variable sinPi : Q -> Q.

Definition Math_random (s : GameService) : Q * GameService :=
  (random (randomCalls s), set_randomCalls (S (randomCalls s)) s).

(** ** Layout generator *)

Definition createObstacle (x z : Q) (s : GameService) : GameService :=
  let '(r, s) := Math_random s in
  let obstacleType := Qfloor (r * 3) in
  let obstacle :=
    if (obstacleType =? 0)%Z then
      mkObject3D Rock (Vector3.mk x 0.4 z) 0
    else if (obstacleType =? 1)%Z then
      mkObject3D Log (Vector3.mk x 0.4 z) 0
    else
      mkObject3D Statue (Vector3.mk x 0.2 z) 0 in
  set_obstacles (obstacles s ++ [obstacle]) s.

Definition createCoin (x z : Q) (s : GameService) : GameService :=
  set_coins (coins s ++ [mkObject3D Coin (Vector3.mk x 0.8 z) 0]) s.

(** Body of the inner loop [for (lane = 0; lane < 3; lane++)]; the second
    operand of [&&] and the argument of [createCoin] each draw a number. *)
Definition placeCoin (obstacleLane : Z) (z : Q) (s : GameService) (lane : Z)
  : GameService :=
  if negb (lane =? obstacleLane)%Z then
    let '(r, s) := Math_random s in
    if Qltb 0.3 r then
      let '(j, s) := Math_random s in
      createCoin (lanes_at lane) (z - j * 3) s
    else s
  else s.

(** Body of the outer loop: one row at distance [z]. *)
Definition generateRow (z : Q) (s : GameService) : GameService :=
  let '(r, s) := Math_random s in
  let obstacleLane := Qfloor (r * 3) in
  let s := createObstacle (lanes_at obstacleLane) z s in
  fold_left (placeCoin obstacleLane z) [0; 1; 2]%Z s.

(** [for (let z = -15; z > -this.trackLength + 15; z -= Math.random() * 10 + 5)].
    [fuel] bounds the number of times the loop test is evaluated; with
    draws in [[0, 1)] every step is at least 5, and [rowFuel] tests are
    enough to reach the exit (lemma [generateRows_complete]). *)
Fixpoint generateRows (fuel : nat) (z : Q) (s : GameService) : GameService :=
  match fuel with
  | O => s
  | S fuel =>
      if Qltb (- trackLength + 15) z then
        let s := generateRow z s in
        let '(r, s) := Math_random s in
        generateRows fuel (z - (r * 10 + 5)) s
      else s
  end.

Definition rowFuel : nat := 95.

Definition generateObstaclesAndCoins (s : GameService) : GameService :=
  let s := set_coins [] (set_obstacles [] s) in
  generateRows rowFuel (-15) s.

(** ** Jump *)

(** One call of the closure [animateJump]. *)
Definition animateJump (initialY jumpProgress : Q) (s : GameService)
  : GameService :=
  let jumpHeight := 2 in
  let jumpProgress := jumpProgress + 0.05 in
  let height := jumpHeight * sinPi jumpProgress in
  let s := set_player (Vector3.set_y (initialY + height) (player s)) s in
  if Qltb jumpProgress 1 then
    snd (requestAnimationFrame (AnimateJump initialY jumpProgress) s)
  else
    set_isJumping false
      (set_player (Vector3.set_y initialY (player s)) s).

Definition jump (s : GameService) : GameService :=
  if isJumping s then s
  else
    let s := set_isJumping true s in
    let initialY := Vector3.y (player s) in
    animateJump initialY 0 s.

(** ** Keyboard *)

Definition keyIn (key : string) (keys : list string) : bool :=
  existsb (String.eqb key) keys.

Definition leftKeys : list string := ["ArrowLeft"; "a"; "A"]%string.
Definition rightKeys : list string := ["ArrowRight"; "d"; "D"]%string.
Definition jumpKeys : list string := ["ArrowUp"; "w"; "W"; " "]%string.

Definition handleKeyDown (key : string) (s : GameService) : GameService :=
  if negb (isGameActive (gameState s)) || isGameOver (gameState s) then s
  else if keyIn key leftKeys then moveLanes (-1) s
  else if keyIn key rightKeys then moveLanes 1 s
  else if keyIn key jumpKeys then jump s
  else s.

(** ** Frame updater *)

Definition updateGame (s : GameService) : GameService :=
  if negb (isGameActive (gameState s)) || isGameOver (gameState s) then s
  else
    let s := set_speed (speed s + 0.00005) s in
    let s := set_trackPosition (trackPosition s + speed s) s in
    let s :=
      if Qle_bool (trackLength - 20) (trackPosition s) then
        generateObstaclesAndCoins (set_trackPosition 0 s)
      else s in
    let s := updateObstacles s in
    let s := updateCoins s in
    increaseScore 0.1 s.

(** ** Restart and initialisation *)

Definition restartGame (s : GameService) : GameService :=
  let s := set_score 0 s in
  let s := set_speed 0.2 s in
  let s := set_trackPosition 0 s in
  let s := set_playerLane 1 s in
  let s := set_isJumping false s in
  let s := set_player (Vector3.mk (lanes_at (playerLane s)) 0 0) s in
  let s := generateObstaclesAndCoins s in
  set_gameState (mkGameState false true) s.

(** The service as its field initialisers leave it.  [player] is assigned
    by [createPlayer] before anything reads it; [seed] is the number of
    random draws made before the game was created. *)
Definition newGameService (seed : nat) : GameService :=
  mkGameService (Vector3.mk 0 0 0) [] [] 0 (mkGameState false false)
    1 false 0.2 0 seed 0 [].

Definition createTrack (s : GameService) : GameService :=
  generateObstaclesAndCoins s.

Definition createPlayer (s : GameService) : GameService :=
  set_player (Vector3.mk (lanes_at (playerLane s)) 0 0) s.

Definition initGame (s : GameService) : GameService :=
  createPlayer (createTrack s).

End Environment.

(** ** The host view: [GameComponent] and the display refresh *)

Module GameComponent.

Record t : Type := mk {
  gameService : GameService;
  showStartScreen : bool;
  animationId : nat
}.

Definition onService (f : GameService -> GameService) (c : t) : t :=
  mk (f (gameService c)) (showStartScreen c) (animationId c).

(** The value shown by the view: [Math.floor (score)]. *)
Definition displayedScore (c : t) : Z := Qfloor (score (gameService c)).

Section Environment.

Variable random : nat -> Q.
Variable sinPi : Q -> Q.

(** [animate]: re-arm the loop, then update the game (rendering left out). *)
Definition animate (c : t) : t :=
  let '(h, g) := requestAnimationFrame Animate (gameService c) in
  let c := mk g (showStartScreen c) h in
  onService (updateGame random) c.

Definition startGame (c : t) : t :=
  let c := mk (gameService c) false (animationId c) in
  let c := onService startGame c in
  animate c.

Definition restartGame (c : t) : t :=
  let c := onService (restartGame random) c in
  if (animationId c =? 0)%nat then animate c else c.

Definition handleKeyDown (key : string) (c : t) : t :=
  onService (handleKeyDown sinPi key) c.

(** [ngAfterViewInit]: the service is initialised, nothing is scheduled. *)
Definition ngAfterViewInit (seed : nat) : t :=
  mk (initGame random (newGameService seed)) true 0.

Definition runCallback (c : t) (cb : FrameCallback) : t :=
  match cb with
  | AnimateLaneChange startX targetX progress =>
      onService (animateLaneChange startX targetX progress) c
  | AnimateJump initialY jumpProgress =>
      onService (animateJump sinPi initialY jumpProgress) c
  | Animate => animate c
  end.

(** One display refresh: the callbacks requested so far run once, in the
    order they were requested; what they request waits for the next one. *)
Definition frame (c : t) : t :=
  let queue := frameRequests (gameService c) in
  fold_left runCallback queue (onService (set_frameRequests []) c).

(** What the host delivers to the view: a display refresh, a key, a click
    on start or on restart. *)
Inductive Event : Type :=
| Refresh
| KeyDown (key : string)
| StartClick
| RestartClick.

Definition step (c : t) (e : Event) : t :=
  match e with
  | Refresh => frame c
  | KeyDown key => handleKeyDown key c
  | StartClick => startGame c
  | RestartClick => restartGame c
  end.

Definition run (es : list Event) (c : t) : t := fold_left step es c.

Definition refreshes (es : list Event) : nat :=
  length (filter (fun e => match e with Refresh => true | _ => false end) es).

Definition isRestart (e : Event) : bool :=
  match e with RestartClick => true | _ => false end.

End Environment.

End GameComponent.

(** ** Statement vocabulary *)

(** *** What an operation leaves alone *)

(** [s'] has the player, the lane, the jump flag and the frame queue of
    [s]. *)
Definition sameMotion (s s' : GameService) : Prop :=
  player s' = player s /\ playerLane s' = playerLane s /\
  isJumping s' = isJumping s /\ frameHandle s' = frameHandle s /\
  frameRequests s' = frameRequests s.

(** [s'] has the speed and the track position of [s]. *)
Definition sameTrack (s s' : GameService) : Prop :=
  speed s' = speed s /\ trackPosition s' = trackPosition s.

(** [s'] has the score and the phase of [s]. *)
Definition sameRun (s s' : GameService) : Prop :=
  score s' = score s /\ gameState s' = gameState s.

Definition sameButLap (s s' : GameService) : Prop :=
  sameMotion s s' /\ sameTrack s s' /\ sameRun s s'.

(** *** Keyboard *)

Definition recognizedKeys : list string := leftKeys ++ rightKeys ++ jumpKeys.

(** *** Track *)

(** The first three steps of an Active tick: speed ramp, advance, recycle. *)
Definition advanceTrack (random : nat -> Q) (s : GameService) : GameService :=
  let s := set_speed (speed s + 0.00005) s in
  let s := set_trackPosition (trackPosition s + speed s) s in
  if Qle_bool (trackLength - 20) (trackPosition s) then
    generateObstaclesAndCoins random (set_trackPosition 0 s)
  else s.

(** The invariant of the track: the position is in [[0, trackLength - 20)]
    and the speed never falls below its base value. *)
Definition trackInv (s : GameService) : Prop :=
  0 <= trackPosition s /\ trackPosition s < trackLength - 20 /\
  0.2 <= speed s.

(** *** Rows of a lap *)

(** Two obstacles of successive rows: the later one is at least 5 further
    down the track. *)
Definition rowGap (a b : Object3D) : Prop :=
  Vector3.z (position b) <= Vector3.z (position a) - 5.


(** The obstacles of [s] in the row at distance [zr]. *)
Definition rowObstacles (zr : Q) (s : GameService) : list Object3D :=
  filter (fun o => Qeq_bool (Vector3.z (position o)) zr) (obstacles s).

(** Lane [lane] holds an obstacle in the row at [zr]. *)
Definition laneBlocked (zr : Q) (s : GameService) (lane : Z) : bool :=
  existsb (fun o => Qeq_bool (Vector3.x (position o)) (lanes_at lane))
    (rowObstacles zr s).

Definition blockedLanes (zr : Q) (s : GameService) : list Z :=
  filter (laneBlocked zr s) [0; 1; 2]%Z.

Definition freeLanes (zr : Q) (s : GameService) : list Z :=
  filter (fun lane => negb (laneBlocked zr s lane)) [0; 1; 2]%Z.

(** *** Jumps in flight *)





(** [jumpProgress] as the closure holds it after the call in [jump] and [k]
    further refreshes. *)
Fixpoint jumpProgressAfter (k : nat) : Q :=
  match k with
  | O => 0 + 0.05
  | S k => jumpProgressAfter k + 0.05
  end.

(** The same counter in IEEE doubles. *)
Fixpoint jumpProgressDouble (k : nat) : float :=
  match k with
  | O => PrimFloat.add 0%float 0.05%float
  | S k => PrimFloat.add (jumpProgressDouble k) 0.05%float
  end.

(** ** Sample environment and states, used to run the model on concrete
       inputs *)

(** A fixed stream of draws in [[0, 1)], all of them sixteenths. *)
Definition sampleRandom (n : nat) : Q :=
  Z.of_nat ((n * n + n / 7) mod 16) # 16.

(** Bhaskara's rational approximation of [sin (p * pi)] on [[0, 1]]; it is
    exact at 0, 1/6, 1/2, 5/6 and 1. *)
Definition sampleSinPi (p : Q) : Q :=
  16 * p * (1 - p) / (5 - 4 * p * (1 - p)).

Definition sampleInit : GameService := initGame sampleRandom (newGameService 0).

(** A lap on an otherwise empty service, and its first row. *)
Definition sampleLap : GameService :=
  generateObstaclesAndCoins sampleRandom (newGameService 0).

(** A grounded player at the origin and two coins: one with its centre at
    the boundary on every axis, one a little closer along the track. *)
Definition groundedAtOrigin : GameService :=
  set_player (Vector3.mk 0 0 0) (newGameService 0).
Definition coinAtBoundary : Object3D :=
  mkObject3D Coin (Vector3.mk 0.75 1.25 (-0.65)) 0.
Definition coinInside : Object3D :=
  mkObject3D Coin (Vector3.mk 0.7 0.8 (-0.6)) 0.
(** A coin inside on x and z and at the boundary on y only. *)
Definition coinAboveBoundary : Object3D :=
  mkObject3D Coin (Vector3.mk 0.7 1.25 (-0.6)) 0.

(** The start of a jump in a running game, and a rock at the player's feet. *)
Definition jumpStart : GameService := jump sampleSinPi (startGame sampleInit).
Definition rockAtPlayer : Object3D := mkObject3D Rock (Vector3.mk 0 0.4 0) 0.

(** The apex of a jump: start, jump key, nine refreshes. *)
Definition jumpApex : GameService :=
  GameComponent.gameService
    (GameComponent.run sampleRandom sampleSinPi
       ([GameComponent.StartClick; GameComponent.KeyDown "w"]
          ++ repeat GameComponent.Refresh 9)
       (GameComponent.ngAfterViewInit sampleRandom 0)).

(** One tick into a run. *)
Definition afterOneTick : GameService :=
  updateGame sampleRandom (startGame sampleInit).


(** A running game with the player grounded in the centre lane, the main
    loop armed, and the events of a third of a second at 60 Hz: eighteen
    refreshes with two keys pressed on the way. *)
Definition runningGame : GameComponent.t :=
  GameComponent.mk
    (mkGameService (Vector3.mk 0 0 0)
       [mkObject3D Statue (Vector3.mk 2 0.2 (-30)) 0]
       [mkObject3D Coin (Vector3.mk 0 0.8 (-31)) 0]
       3 (mkGameState false true) 1 false 0.21 200 40 7 [Animate])
    false 7.

Definition eighteenRefreshes : list GameComponent.Event :=
  repeat GameComponent.Refresh 9
    ++ [GameComponent.KeyDown "w"; GameComponent.KeyDown "ArrowLeft"]
    ++ repeat GameComponent.Refresh 9.



(** ** Vocabulary of the further properties *)

(** *** Entity loops *)

(** A coin after one tick at speed [v]: moved, then turned. *)
Definition tickCoin (v : Q) (c : Object3D) : Object3D := spin (advance v c).

(** [s'] agrees with [s] on everything but the player's position, the jump
    flag and the frame queue: score, phase, lane, speed, track position,
    entities and random cursor. *)
Definition sameWorld (s s' : GameService) : Prop :=
  score s' = score s /\ gameState s' = gameState s /\
  playerLane s' = playerLane s /\ speed s' = speed s /\
  trackPosition s' = trackPosition s /\ obstacles s' = obstacles s /\
  coins s' = coins s /\ randomCalls s' = randomCalls s.

(** Refreshes and keys, as opposed to the two buttons. *)
Definition isPassive (e : GameComponent.Event) : bool :=
  match e with
  | GameComponent.Refresh | GameComponent.KeyDown _ => true
  | _ => false
  end.

Definition isStart (e : GameComponent.Event) : bool :=
  match e with GameComponent.StartClick => true | _ => false end.

(** *** Sample state of a fatal tick *)

(** A running game in which one more tick brings a rock and a coin onto the
    player, while a statue and a second coin are far down the track. *)
Definition fatalTick : GameService :=
  mkGameService (Vector3.mk 0 0 0)
    [mkObject3D Rock (Vector3.mk 0 0.4 (-0.5)) 0;
     mkObject3D Statue (Vector3.mk 2 0.2 (-30)) 0]
    [mkObject3D Coin (Vector3.mk 0 0.8 (-0.3)) 0;
     mkObject3D Coin (Vector3.mk 2 0.8 (-40)) 0]
    3 (mkGameState false true) 1 false 0.21 200 40 7 [Animate].

(** *** The main loop *)

Definition isAnimateRequest (cb : FrameCallback) : bool :=
  match cb with Animate => true | _ => false end.

(** The number of pending [animate] callbacks: each is one running copy of
    the main loop. *)
Definition armedLoops (c : GameComponent.t) : nat :=
  List.length (filter isAnimateRequest
                 (frameRequests (GameComponent.gameService c))).

(** The loops running after an event, from the loops running before it. *)
Definition loopStep (n : nat) (e : GameComponent.Event) : nat :=
  match e with
  | GameComponent.StartClick => S n
  | GameComponent.RestartClick => Nat.max 1 n
  | _ => n
  end.

(** [animationId] is 0 exactly while no copy of the loop is armed. *)
Definition loopsTracked (c : GameComponent.t) : Prop :=
  GameComponent.animationId c = 0%nat <-> armedLoops c = 0%nat.

(** A game over reached with the main loop armed. *)
Definition gameOverView : GameComponent.t :=
  GameComponent.mk (gameOver (GameComponent.gameService runningGame)) false 7.

(** *** Lane changes in flight *)

Definition isLaneRequest (cb : FrameCallback) : bool :=
  match cb with AnimateLaneChange _ _ _ => true | _ => false end.

(** The pending [animateLaneChange] closures of a frame queue. *)
Definition laneRequests (queue : list FrameCallback) : list FrameCallback :=
  filter isLaneRequest queue.

(** [s'] has the lane, the player's lateral position and the pending lane
    closures of [s]. *)
Definition sameLane (s s' : GameService) : Prop :=
  playerLane s' = playerLane s /\
  Vector3.x (player s') = Vector3.x (player s) /\
  laneRequests (frameRequests s') = laneRequests (frameRequests s).

(** A lane change from [startX] to [targetX] is in flight with progress [p]
    (a double): its closure is the one pending and the player is at the
    interpolated position. *)
Definition laneInFlight (startX targetX : Q) (p : float) (s : GameService)
  : Prop :=
  laneRequests (frameRequests s) = [AnimateLaneChange startX targetX p] /\
  Vector3.x (player s) = startX + (targetX - startX) * doubleValue p.

(** [progress] as the closure holds it after the call in [moveLanes] and
    [k] further refreshes: [k + 1] additions of the double 0.1, each one
    rounded. *)
Fixpoint laneProgressAfter (k : nat) : float :=
  match k with
  | O => PrimFloat.add 0%float 0.1%float
  | S k => PrimFloat.add (laneProgressAfter k) 0.1%float
  end.

(** Events that start no lane change and do not restart the game. *)
Definition laneQuiet (e : GameComponent.Event) : bool :=
  match e with
  | GameComponent.KeyDown key =>
      negb (keyIn key leftKeys || keyIn key rightKeys)
  | GameComponent.RestartClick => false
  | _ => true
  end.

(** Nine refreshes with a jump on the way. *)
Definition nineRefreshes : list GameComponent.Event :=
  repeat GameComponent.Refresh 4
    ++ [GameComponent.KeyDown " "]
    ++ repeat GameComponent.Refresh 5.

(** *** The generator's inputs and outputs *)

(** [s] and [t] give the generator the same input: the random cursor and
    the entity sequences it appends to. *)
Definition sameSource (s t : GameService) : Prop :=
  randomCalls s = randomCalls t /\ obstacles s = obstacles t /\
  coins s = coins t.

(** An obstacle as the generator places it: a rock or a log at height 0.4
    or a statue at 0.2, on one of the three lanes, between the lead-in and
    the lead-out of the track. *)
Definition obstaclePlaced (o : Object3D) : Prop :=
  (kind o = Rock /\ Vector3.y (position o) = 0.4 \/
   kind o = Log /\ Vector3.y (position o) = 0.4 \/
   kind o = Statue /\ Vector3.y (position o) = 0.2) /\
  In (Vector3.x (position o)) lanes /\
  - trackLength + 15 < Vector3.z (position o) /\
  Vector3.z (position o) <= -15.

(** A coin as the generator places it: at height 0.8 on one of the three
    lanes, at most 3 behind a row. *)
Definition coinPlaced (c : Object3D) : Prop :=
  kind c = Coin /\ Vector3.y (position c) = 0.8 /\
  In (Vector3.x (position c)) lanes /\
  - trackLength + 15 - 3 < Vector3.z (position c) /\
  Vector3.z (position c) <= -15.

(** A finished run with a score, a lane change and a jump behind it. *)
Definition wornOut : GameService :=
  mkGameService (Vector3.mk (-2) 1.3 0)
    [mkObject3D Rock (Vector3.mk (-2) 0.4 0.2) 0]
    [] 257 (mkGameState true false) 0 true 0.3 77 40 9
    [Animate; AnimateJump 0 0.4].

(** * Properties *)

(** ** Comparisons *)

Lemma Qltb_lt (a b : Q) : Qltb a b = true <-> a < b.
Proof.
  unfold Qltb. rewrite negb_true_iff, <- not_true_iff_false, Qle_bool_iff.
  split; [apply Qnot_le_lt | apply Qlt_not_le].
Qed.

Lemma Qltb_ge (a b : Q) : Qltb a b = false <-> b <= a.
Proof.
  unfold Qltb. rewrite negb_false_iff. apply Qle_bool_iff.
Qed.

Lemma Qle_bool_gt (a b : Q) : Qle_bool a b = false <-> b < a.
Proof.
  rewrite <- not_true_iff_false, Qle_bool_iff.
  split; [apply Qnot_le_lt | apply Qlt_not_le].
Qed.

(** ** Geometry *)

Lemma playerHeight_jumping (s : GameService) :
  isJumping s = true -> playerHeight s = 0.
Proof. unfold playerHeight. intros ->. reflexivity. Qed.

Lemma isPlayerColliding_true (s : GameService) (o : Object3D) :
  isPlayerColliding s o = true <->
  Qabs (Vector3.x (player s) - Vector3.x (position o)) < (0.7 + 0.8) / 2 /\
  Qabs (Vector3.z (player s) - Vector3.z (position o)) < (0.5 + 0.8) / 2 /\
  Qabs (Vector3.y (player s) - Vector3.y (position o))
    < (playerHeight s + 1) / 2.
Proof.
  unfold isPlayerColliding, xCollision, zCollision, yCollision.
  rewrite !andb_true_iff, !Qltb_lt. tauto.
Qed.

(** C5 -- the overlap test is exact and strict on each axis: the test of an
    axis holds exactly when the distance of the centres on that axis is
    below the sum of the half-extents, and the boxes overlap exactly when
    this is so on all three axes.  Hence with the centres exactly that sum
    apart on an axis that axis' test fails, and with it the overlap test (on
    one axis, and so on every axis); and from there, a distance below the
    sum on one axis, the other two axes overlapping, makes the boxes
    overlap. *)
Theorem collision_strict_at_boundary (s : GameService) (o : Object3D) :
  let dx := Qabs (Vector3.x (player s) - Vector3.x (position o)) in
  let dy := Qabs (Vector3.y (player s) - Vector3.y (position o)) in
  let dz := Qabs (Vector3.z (player s) - Vector3.z (position o)) in
  let rx := (0.7 + 0.8) / 2 in
  let ry := (playerHeight s + 1) / 2 in
  let rz := (0.5 + 0.8) / 2 in
  (xCollision s o = true <-> dx < rx) /\
  (yCollision s o = true <-> dy < ry) /\
  (zCollision s o = true <-> dz < rz) /\
  (isPlayerColliding s o = true <-> dx < rx /\ dy < ry /\ dz < rz) /\
  (dx == rx -> xCollision s o = false) /\
  (dy == ry -> yCollision s o = false) /\
  (dz == rz -> zCollision s o = false) /\
  (dx == rx \/ dy == ry \/ dz == rz -> isPlayerColliding s o = false) /\
  (dx == rx /\ dy == ry /\ dz == rz -> isPlayerColliding s o = false) /\
  (dx < rx -> yCollision s o = true -> zCollision s o = true ->
   isPlayerColliding s o = true) /\
  (dy < ry -> xCollision s o = true -> zCollision s o = true ->
   isPlayerColliding s o = true) /\
  (dz < rz -> xCollision s o = true -> yCollision s o = true ->
   isPlayerColliding s o = true).
Proof.
  cbv zeta.
  assert (Hx : xCollision s o = true <->
               Qabs (Vector3.x (player s) - Vector3.x (position o))
               < (0.7 + 0.8) / 2) by apply Qltb_lt.
  assert (Hy : yCollision s o = true <->
               Qabs (Vector3.y (player s) - Vector3.y (position o))
               < (playerHeight s + 1) / 2) by apply Qltb_lt.
  assert (Hz : zCollision s o = true <->
               Qabs (Vector3.z (player s) - Vector3.z (position o))
               < (0.5 + 0.8) / 2) by apply Qltb_lt.
  assert (Hall : isPlayerColliding s o = true <->
                 xCollision s o = true /\ yCollision s o = true /\
                 zCollision s o = true).
  { unfold isPlayerColliding. rewrite !andb_true_iff. tauto. }
  assert (Hirr : forall (b : bool) (d r : Q),
            (b = true <-> d < r) -> d == r -> b = false).
  { intros b d r Hb E. apply not_true_is_false. intros Ht.
    apply Hb in Ht. rewrite E in Ht. exact (Qlt_irrefl _ Ht). }
  assert (Hany :
    Qabs (Vector3.x (player s) - Vector3.x (position o)) == (0.7 + 0.8) / 2 \/
    Qabs (Vector3.y (player s) - Vector3.y (position o))
      == (playerHeight s + 1) / 2 \/
    Qabs (Vector3.z (player s) - Vector3.z (position o)) == (0.5 + 0.8) / 2 ->
    isPlayerColliding s o = false).
  { intros E. apply not_true_is_false. intros Ht.
    apply Hall in Ht. destruct Ht as (Tx & Ty & Tz).
    destruct E as [E | [E | E]].
    - rewrite (Hirr _ _ _ Hx E) in Tx. discriminate.
    - rewrite (Hirr _ _ _ Hy E) in Ty. discriminate.
    - rewrite (Hirr _ _ _ Hz E) in Tz. discriminate. }
  split; [exact Hx |]. split; [exact Hy |]. split; [exact Hz |].
  split; [rewrite Hall, Hx, Hy, Hz; tauto |].
  split; [apply Hirr, Hx |]. split; [apply Hirr, Hy |].
  split; [apply Hirr, Hz |]. split; [exact Hany |].
  split; [intros (E & _ & _); apply Hany; left; exact E |].
  split; [| split].
  - intros Hd Ty Tz. apply Hall. split; [apply Hx, Hd | split; assumption].
  - intros Hd Tx Tz. apply Hall. split; [| split; [apply Hy, Hd |]]; assumption.
  - intros Hd Tx Ty. apply Hall. split; [| split; [| apply Hz, Hd]]; assumption.
Qed.

Lemma collision_strict_at_boundary_witness :
  isPlayerColliding groundedAtOrigin coinAtBoundary = false /\
  isPlayerColliding groundedAtOrigin coinAboveBoundary = false /\
  isPlayerColliding groundedAtOrigin coinInside = true.
Proof.
  assert (E1 : Qabs (Vector3.x (player groundedAtOrigin)
                     - Vector3.x (position coinAtBoundary)) == (0.7 + 0.8) / 2 /\
               Qabs (Vector3.y (player groundedAtOrigin)
                     - Vector3.y (position coinAtBoundary))
               == (playerHeight groundedAtOrigin + 1) / 2 /\
               Qabs (Vector3.z (player groundedAtOrigin)
                     - Vector3.z (position coinAtBoundary)) == (0.5 + 0.8) / 2)
    by (vm_compute; repeat split; reflexivity).
  assert (E2 : Qabs (Vector3.y (player groundedAtOrigin)
                     - Vector3.y (position coinAboveBoundary))
               == (playerHeight groundedAtOrigin + 1) / 2)
    by (vm_compute; reflexivity).
  assert (E3 : Qabs (Vector3.z (player groundedAtOrigin)
                     - Vector3.z (position coinInside)) < (0.5 + 0.8) / 2)
    by (vm_compute; reflexivity).
  destruct (collision_strict_at_boundary groundedAtOrigin coinAtBoundary)
    as (_ & _ & _ & _ & _ & _ & _ & _ & H1 & _).
  destruct (collision_strict_at_boundary groundedAtOrigin coinAboveBoundary)
    as (_ & _ & _ & _ & _ & _ & _ & H2 & _).
  destruct (collision_strict_at_boundary groundedAtOrigin coinInside)
    as (_ & _ & _ & _ & _ & _ & _ & _ & _ & _ & _ & H3).
  exact (conj (H1 E1)
          (conj (H2 (or_intror (or_introl E2))) (H3 E3 eq_refl eq_refl))).
Defined.

(** C2 (as amended) -- while [isJumping] holds the player's box has height
    0, so the vertical test compares the distance of the centres with 0.5:
    it fails, and with it the whole overlap test, exactly when the centres
    are at least 0.5 apart vertically. *)
Theorem jumping_vertical_pass (s : GameService) (o : Object3D) :
  isJumping s = true ->
  let dy := Qabs (Vector3.y (player s) - Vector3.y (position o)) in
  playerHeight s = 0 /\
  (yCollision s o = false <-> 0.5 <= dy) /\
  (0.5 <= dy -> isPlayerColliding s o = false).
Proof.
  intros Hj dy. assert (Hh := playerHeight_jumping s Hj).
  assert (Hy : yCollision s o = false <-> 0.5 <= dy).
  { unfold yCollision. rewrite Hh, Qltb_ge. subst dy.
    assert (E : (0 + 1) / 2 == 0.5) by reflexivity.
    split; intros H; [rewrite <- E | rewrite E]; exact H. }
  repeat split; try tauto.
  - intros H. apply Hy in H. unfold isPlayerColliding. rewrite H.
    apply andb_false_r.
Qed.

(** ** What each operation leaves alone *)

Lemma sameButLap_refl (s : GameService) : sameButLap s s.
Proof. repeat split. Qed.

Lemma sameButLap_trans (a b c : GameService) :
  sameButLap a b -> sameButLap b c -> sameButLap a c.
Proof.
  unfold sameButLap, sameMotion, sameTrack, sameRun.
  intros H1 H2. decompose [and] H1. decompose [and] H2.
  repeat split; congruence.
Qed.

Ltac same_crush :=
  unfold sameButLap, sameMotion, sameTrack, sameRun;
  cbn; repeat split; reflexivity.

Section LapFrame.

Variable random : nat -> Q.

Lemma createObstacle_same (x z : Q) (s : GameService) :
  sameButLap s (createObstacle random x z s).
Proof.
  unfold createObstacle, Math_random.
  repeat match goal with |- context [if ?b then _ else _] => destruct b end;
    same_crush.
Qed.

Lemma placeCoin_same (l : Z) (z : Q) (s : GameService) (lane : Z) :
  sameButLap s (placeCoin random l z s lane).
Proof.
  unfold placeCoin, createCoin, Math_random.
  repeat match goal with |- context [if ?b then _ else _] => destruct b end;
    same_crush.
Qed.

Lemma placeCoins_same (l : Z) (z : Q) (ls : list Z) (s : GameService) :
  sameButLap s (fold_left (placeCoin random l z) ls s).
Proof.
  revert s. induction ls as [|lane ls IH]; intros s; cbn.
  - apply sameButLap_refl.
  - eapply sameButLap_trans; [apply placeCoin_same | apply IH].
Qed.

Lemma generateRow_same (z : Q) (s : GameService) :
  sameButLap s (generateRow random z s).
Proof.
  unfold generateRow, Math_random.
  eapply sameButLap_trans; [| apply placeCoins_same].
  eapply sameButLap_trans; [| apply createObstacle_same].
  same_crush.
Qed.

Lemma generateRows_same (fuel : nat) (z : Q) (s : GameService) :
  sameButLap s (generateRows random fuel z s).
Proof.
  revert z s. induction fuel as [|fuel IH]; intros z s; cbn.
  - apply sameButLap_refl.
  - destruct (Qltb _ z); [| apply sameButLap_refl].
    eapply sameButLap_trans; [apply generateRow_same |].
    eapply sameButLap_trans; [| apply IH].
    same_crush.
Qed.

Lemma generateObstaclesAndCoins_same (s : GameService) :
  sameButLap s (generateObstaclesAndCoins random s).
Proof.
  unfold generateObstaclesAndCoins.
  eapply sameButLap_trans; [| apply generateRows_same]. same_crush.
Qed.

(** The generator starts from empty sequences: what it returns does not
    depend on the entities of the previous lap. *)
Lemma generateObstaclesAndCoins_replaces
  (os cs : list Object3D) (s : GameService) :
  generateObstaclesAndCoins random (set_coins cs (set_obstacles os s)) =
  generateObstaclesAndCoins random s.
Proof. reflexivity. Qed.

End LapFrame.

(** The two entity loops of [updateGame]. *)

Lemma moveObstacles_same (os : list Object3D) (s : GameService) :
  sameMotion s (snd (moveObstacles os s)) /\
  sameTrack s (snd (moveObstacles os s)) /\
  score (snd (moveObstacles os s)) = score s /\
  coins (snd (moveObstacles os s)) = coins s /\
  randomCalls (snd (moveObstacles os s)) = randomCalls s.
Proof.
  revert s. induction os as [|o os IH]; intros s; cbn.
  - repeat split.
  - destruct (moveObstacles os _) as [rest s2] eqn:E.
    match type of E with moveObstacles os ?s1 = _ => specialize (IH s1) end.
    rewrite E in IH. cbn in *.
    unfold sameMotion, sameTrack in *.
    destruct (isPlayerColliding s _); cbn in *; tauto.
Qed.

Lemma moveCoins_same (cs : list Object3D) (s : GameService) :
  sameMotion s (snd (moveCoins cs s)) /\
  sameTrack s (snd (moveCoins cs s)) /\
  gameState (snd (moveCoins cs s)) = gameState s /\
  obstacles (snd (moveCoins cs s)) = obstacles s /\
  randomCalls (snd (moveCoins cs s)) = randomCalls s.
Proof.
  induction cs as [|c cs IH]; cbn.
  - repeat split.
  - destruct (moveCoins cs s) as [kept s1]. cbn in *.
    unfold sameMotion, sameTrack in *.
    destruct (isPlayerColliding s1 _); cbn in *; tauto.
Qed.

Lemma updateObstacles_same (s : GameService) :
  sameMotion s (updateObstacles s) /\ sameTrack s (updateObstacles s).
Proof.
  unfold updateObstacles.
  pose proof (moveObstacles_same (obstacles s) s) as H.
  destruct (moveObstacles (obstacles s) s) as [moved s1]. cbn in *.
  unfold sameMotion, sameTrack in *. cbn. tauto.
Qed.

Lemma updateCoins_same (s : GameService) :
  sameMotion s (updateCoins s) /\ sameTrack s (updateCoins s).
Proof.
  unfold updateCoins.
  pose proof (moveCoins_same (coins s) s) as H.
  destruct (moveCoins (coins s) s) as [kept s1]. cbn in *.
  unfold sameMotion, sameTrack in *. cbn. tauto.
Qed.

(** ** Run state machine *)

Lemma phase_Active (s : GameService) :
  phase s = Active <->
  negb (isGameActive (gameState s)) || isGameOver (gameState s) = false.
Proof.
  unfold phase, phaseOf.
  destruct (isGameOver (gameState s)), (isGameActive (gameState s));
    cbn; split; congruence.
Qed.

Lemma not_Active_guard (s : GameService) :
  phase s <> Active ->
  negb (isGameActive (gameState s)) || isGameOver (gameState s) = true.
Proof.
  intros H. apply not_false_is_true. intros E. apply H, phase_Active, E.
Qed.

Lemma startGame_fields (s : GameService) :
  score (startGame s) = 0 /\ phase (startGame s) = Active /\
  sameMotion s (startGame s) /\ sameTrack s (startGame s) /\
  obstacles (startGame s) = obstacles s /\ coins (startGame s) = coins s /\
  randomCalls (startGame s) = randomCalls s.
Proof. repeat split. Qed.

Lemma initGame_fields (random : nat -> Q) (seed : nat) :
  let s0 := initGame random (newGameService seed) in
  phase s0 = Idle /\ score s0 = 0 /\ speed s0 = 0.2 /\ trackPosition s0 = 0 /\
  playerLane s0 = 1%Z /\ isJumping s0 = false /\
  player s0 = Vector3.mk 0 0 0 /\ frameRequests s0 = [].
Proof.
  cbv zeta. unfold initGame, createTrack, createPlayer.
  pose proof (generateObstaclesAndCoins_same random (newGameService seed)) as H.
  unfold sameButLap, sameMotion, sameTrack, sameRun in H.
  decompose [and] H. clear H. unfold phase.
  cbn [score speed trackPosition playerLane isJumping player frameRequests
       set_player gameState].
  repeat match goal with H : _ = _ |- _ => rewrite H; clear H end.
  repeat split.
Qed.

(** C1 (as amended) -- [startGame] in Idle moves the phase to Active and
    sets the score to 0; speed, track position, lane, player position, jump
    flag, obstacles and coins stay as they are and no random number is drawn.
    In the state [initGame] builds, these are the base speed 0.2, track
    position 0, the centre lane, a grounded player and the lap laid out at
    initialisation. *)
Theorem startGame_from_idle (random : nat -> Q) (seed : nat) (s : GameService) :
  phase s = Idle ->
  let s' := startGame s in
  (phase s' = Active /\ score s' = 0 /\
   speed s' = speed s /\ trackPosition s' = trackPosition s /\
   playerLane s' = playerLane s /\ player s' = player s /\
   isJumping s' = isJumping s /\
   obstacles s' = obstacles s /\ coins s' = coins s /\
   randomCalls s' = randomCalls s) /\
  (s = initGame random (newGameService seed) ->
   speed s' = 0.2 /\ trackPosition s' = 0 /\ playerLane s' = 1%Z /\
   isJumping s' = false /\ Vector3.y (player s') = 0 /\
   Vector3.x (player s') = lanes_at 1).
Proof.
  intros _ s'. split; [repeat split |]. intros E.
  pose proof (initGame_fields random seed) as H. cbv zeta in H.
  rewrite <- E in H.
  destruct H as (_ & _ & Hs & Ht & Hl & Hj & Hp & _).
  destruct (startGame_fields s)
    as (_ & _ & (Hp' & Hl' & Hj' & _) & (Hs' & Ht') & _).
  subst s'. rewrite Hp', Hl', Hj', Hs', Ht', Hp.
  repeat split; assumption.
Qed.

Lemma startGame_from_idle_witness :
  let s' := startGame sampleInit in
  phase s' = Active /\ score s' = 0 /\ speed s' = 0.2 /\
  obstacles s' = obstacles sampleInit.
Proof.
  assert (Hi : phase sampleInit = Idle) by (vm_compute; reflexivity).
  destruct (startGame_from_idle sampleRandom 0 sampleInit Hi) as [H1 H2].
  destruct H1 as (Ha & Hb & _ & _ & _ & _ & _ & Hc & _).
  destruct (H2 eq_refl) as (Hd & _).
  exact (conj Ha (conj Hb (conj Hd Hc))).
Defined.

(** C3 (as amended) -- [startGame] has no guard on the phase: it always
    sets the score to 0 and the phase to Active and touches nothing else.
    So it changes nothing exactly when the game is already Active with
    score 0, and a second call right after a first one changes nothing. *)
Theorem startGame_idempotent (s : GameService) :
  startGame (startGame s) = startGame s /\
  startGame s = set_gameState (mkGameState false true) (set_score 0 s) /\
  (startGame s = s <->
   score s = 0 /\ gameState s = mkGameState false true).
Proof.
  split; [reflexivity | split; [reflexivity | split]].
  - intros H. rewrite <- H. split; reflexivity.
  - intros [H1 H2]. destruct s. cbn in *. subst. reflexivity.
Qed.

(** C6 -- outside the Active phase [updateGame] returns the state it was
    given: score, speed, track position and every entity are untouched. *)
Theorem updateGame_noop_unless_active (random : nat -> Q) (s : GameService) :
  phase s = Idle \/ phase s = GameOver ->
  updateGame random s = s /\
  score (updateGame random s) = score s /\
  speed (updateGame random s) = speed s /\
  trackPosition (updateGame random s) = trackPosition s /\
  obstacles (updateGame random s) = obstacles s /\
  coins (updateGame random s) = coins s.
Proof.
  intros H.
  assert (E : updateGame random s = s).
  { unfold updateGame. rewrite not_Active_guard; [reflexivity |].
    destruct H as [H | H]; rewrite H; discriminate. }
  rewrite E. repeat split.
Qed.

Lemma updateGame_noop_unless_active_witness :
  updateGame sampleRandom sampleInit = sampleInit /\
  updateGame sampleRandom (gameOver (startGame sampleInit)) =
    gameOver (startGame sampleInit).
Proof.
  assert (H1 : phase sampleInit = Idle \/ phase sampleInit = GameOver)
    by (left; vm_compute; reflexivity).
  assert (H2 : phase (gameOver (startGame sampleInit)) = Idle \/
               phase (gameOver (startGame sampleInit)) = GameOver)
    by (right; reflexivity).
  exact (conj
    (proj1 (updateGame_noop_unless_active sampleRandom sampleInit H1))
    (proj1 (updateGame_noop_unless_active sampleRandom
              (gameOver (startGame sampleInit)) H2))).
Defined.

(** ** Keyboard and lanes *)

Lemma keyIn_false (key : string) (keys : list string) :
  ~ In key keys -> keyIn key keys = false.
Proof.
  intros H. unfold keyIn. apply not_true_is_false. intros E.
  apply existsb_exists in E. destruct E as (k & Hk & Heq).
  apply String.eqb_eq in Heq. subst k. exact (H Hk).
Qed.

(** C10 -- a key-down changes nothing unless the phase is Active, and a key
    that is none of the bound ones changes nothing in any phase. *)
Theorem handleKeyDown_ignored (sinPi : Q -> Q) (key : string) (s : GameService) :
  (phase s = Idle \/ phase s = GameOver -> handleKeyDown sinPi key s = s) /\
  (~ In key recognizedKeys -> handleKeyDown sinPi key s = s).
Proof.
  split.
  - intros H. unfold handleKeyDown. rewrite not_Active_guard; [reflexivity |].
    destruct H as [H | H]; rewrite H; discriminate.
  - intros H. unfold handleKeyDown, recognizedKeys in *.
    rewrite !in_app_iff in H.
    rewrite !keyIn_false by tauto.
    destruct (_ || _); reflexivity.
Qed.

Lemma handleKeyDown_ignored_witness :
  handleKeyDown sampleSinPi "ArrowLeft" sampleInit = sampleInit /\
  handleKeyDown sampleSinPi " " (gameOver (startGame sampleInit)) =
    gameOver (startGame sampleInit) /\
  handleKeyDown sampleSinPi "q" (startGame sampleInit) = startGame sampleInit.
Proof.
  assert (H1 : phase sampleInit = Idle \/ phase sampleInit = GameOver)
    by (left; vm_compute; reflexivity).
  assert (H2 : phase (gameOver (startGame sampleInit)) = Idle \/
               phase (gameOver (startGame sampleInit)) = GameOver)
    by (right; reflexivity).
  assert (H3 : ~ In "q"%string recognizedKeys)
    by (cbn; intuition discriminate).
  exact (conj
    (proj1 (handleKeyDown_ignored sampleSinPi "ArrowLeft" sampleInit) H1)
    (conj
      (proj1 (handleKeyDown_ignored sampleSinPi " "
                (gameOver (startGame sampleInit))) H2)
      (proj2 (handleKeyDown_ignored sampleSinPi "q" (startGame sampleInit))
         H3))).
Defined.

Lemma moveLanes_lane (direction : Z) (s : GameService) :
  playerLane (moveLanes direction s) =
  Z.max 0 (Z.min 2 (playerLane s + direction)).
Proof.
  unfold moveLanes, animateLaneChange.
  destruct (Z.eqb_spec (Z.max 0 (Z.min 2 (playerLane s + direction)))
              (playerLane s)) as [E | E]; cbn [negb].
  - symmetry. exact E.
  - destruct (PrimFloat.ltb _ _); reflexivity.
Qed.

(** C7 -- whatever the direction, the lane after [moveLanes] is the clamped
    one and lies in 0..2; moving left in lane 0, or right in lane 2, returns
    the state unchanged, lateral position included. *)
Theorem moveLanes_clamped (direction : Z) (s : GameService) :
  (direction = (-1)%Z \/ direction = 1%Z) ->
  (0 <= playerLane s <= 2)%Z ->
  (0 <= playerLane (moveLanes direction s) <= 2)%Z /\
  playerLane (moveLanes direction s) =
    Z.max 0 (Z.min 2 (playerLane s + direction)) /\
  (playerLane s = 0%Z -> moveLanes (-1) s = s /\
     Vector3.x (player (moveLanes (-1) s)) = Vector3.x (player s)) /\
  (playerLane s = 2%Z -> moveLanes 1 s = s /\
     Vector3.x (player (moveLanes 1 s)) = Vector3.x (player s)).
Proof.
  intros _ _. rewrite moveLanes_lane.
  split; [lia | split; [reflexivity | split]];
    intros H; unfold moveLanes; rewrite H; split; reflexivity.
Qed.

Lemma moveLanes_clamped_witness :
  moveLanes (-1) (set_playerLane 0 sampleInit) = set_playerLane 0 sampleInit /\
  playerLane (moveLanes 1 sampleInit) = 2%Z.
Proof.
  assert (Hl : (0 <= playerLane (set_playerLane 0 sampleInit) <= 2)%Z)
    by (split; discriminate).
  assert (Hc : (0 <= playerLane sampleInit <= 2)%Z)
    by (vm_compute; split; discriminate).
  destruct (moveLanes_clamped (-1) (set_playerLane 0 sampleInit)
              (or_introl eq_refl) Hl) as (_ & _ & H0 & _).
  destruct (moveLanes_clamped 1 sampleInit (or_intror eq_refl) Hc)
    as (_ & H & _).
  split.
  - exact (proj1 (H0 eq_refl)).
  - rewrite H. vm_compute. reflexivity.
Defined.

(** ** Concrete runs *)

(** The first step of a jump lifts the player by [2 * sinPi 0.05] (about
    0.31 for the sine), which stays within 0.5 of a rock's centre at 0.4:
    the vertical test still succeeds although [isJumping] holds. *)
Lemma jump_first_step_collides (sinPi : Q -> Q) (s : GameService) (o : Object3D) :
  isJumping s = false ->
  Vector3.y (player s) == 0 ->
  Vector3.y (position o) == 0.4 ->
  0 <= sinPi (0 + 0.05) < 0.45 ->
  isJumping (jump sinPi s) = true /\ yCollision (jump sinPi s) o = true.
Proof.
  intros Hj Hy Ho Hs. unfold jump, animateJump. rewrite Hj.
  assert (Hlt : Qltb (0 + 0.05) 1 = true) by reflexivity.
  rewrite Hlt. split; [reflexivity |].
  unfold yCollision, playerHeight, requestAnimationFrame.
  cbn [player isJumping snd set_player set_isJumping set_frameRequests
       set_frameHandle Vector3.y Vector3.set_y].
  apply Qltb_lt. rewrite Hy, Ho.
  assert (E : (0 + 1) / 2 == 0.5) by reflexivity. rewrite E.
  set (v := sinPi (0 + 0.05)) in *.
  apply Qabs_case; intros _; lra.
Qed.

(** C2, counterexample -- at the first step of a jump [isJumping] holds and
    the vertical test, and the whole overlap test, succeed against a rock at
    the player's place. *)
Lemma jumping_still_collides :
  isJumping jumpStart = true /\
  yCollision jumpStart rockAtPlayer = true /\
  isPlayerColliding jumpStart rockAtPlayer = true.
Proof. vm_compute. repeat split. Qed.

Lemma jumping_vertical_pass_witness :
  isJumping jumpApex = true /\
  isPlayerColliding jumpApex rockAtPlayer = false.
Proof.
  assert (Hj : isJumping jumpApex = true) by (vm_compute; reflexivity).
  split; [exact Hj |].
  refine (proj2 (proj2 (jumping_vertical_pass jumpApex rockAtPlayer Hj)) _).
  vm_compute. discriminate.
Defined.

(** C1, counterexample -- in the Idle state built by [initGame], [startGame]
    draws no random number and keeps the obstacles it found, which are not
    the ones the generator lays out when it is called there. *)
Lemma startGame_keeps_lap :
  phase sampleInit = Idle /\
  randomCalls (startGame sampleInit) = randomCalls sampleInit /\
  obstacles (startGame sampleInit) = obstacles sampleInit /\
  obstacles (startGame sampleInit) <>
    obstacles (generateObstaclesAndCoins sampleRandom sampleInit).
Proof.
  destruct (startGame_fields sampleInit) as (_ & _ & _ & _ & Ho & _ & Hr).
  split; [vm_compute; reflexivity |].
  split; [exact Hr |]. split; [exact Ho |].
  assert (E0 : map kind (firstn 1 (obstacles sampleInit)) = [Rock])
    by (vm_compute; reflexivity).
  assert (E1 : map kind (firstn 1 (obstacles
                 (generateObstaclesAndCoins sampleRandom sampleInit))) = [Log])
    by (vm_compute; reflexivity).
  intros H. rewrite Ho in H.
  apply (f_equal (fun l => map kind (firstn 1 l))) in H.
  rewrite E0, E1 in H. discriminate.
Qed.

(** [moveLanes] is a public method; called in Idle it moves the player, and
    [startGame] does not bring the player back to the centre lane. *)
Example startGame_keeps_lane :
  let s := moveLanes (-1) sampleInit in
  phase s = Idle /\ playerLane (startGame s) = 0%Z.
Proof. vm_compute. split; reflexivity. Qed.

(** C3, counterexample -- in the Active phase with a non-zero score
    [startGame] is not a no-op: it puts the score back to 0. *)
Lemma startGame_resets_active_score :
  phase afterOneTick = Active /\
  score afterOneTick = 0.1 /\
  score (startGame afterOneTick) = 0 /\
  startGame afterOneTick <> afterOneTick.
Proof.
  assert (Hs : score afterOneTick = 0.1) by (vm_compute; reflexivity).
  split; [vm_compute; reflexivity |].
  split; [exact Hs |]. split; [reflexivity |].
  intros H. apply (f_equal score) in H. rewrite Hs in H. discriminate.
Qed.

(** From GameOver, [startGame] starts a new run without the resets of
    [restartGame]. *)
Example startGame_leaves_GameOver :
  phase (gameOver afterOneTick) = GameOver /\
  phase (startGame (gameOver afterOneTick)) = Active.
Proof. split; reflexivity. Qed.

(** ** Track position *)

Lemma sameTrack_trans (a b c : GameService) :
  sameTrack a b -> sameTrack b c -> sameTrack a c.
Proof. unfold sameTrack. intros [? ?] [? ?]. split; congruence. Qed.

Lemma animateLaneChange_sameTrack
  (startX targetX : Q) (progress : float) (s : GameService) :
  sameTrack s (animateLaneChange startX targetX progress s).
Proof.
  unfold animateLaneChange. destruct (PrimFloat.ltb _ _); split; reflexivity.
Qed.

Lemma moveLanes_sameTrack (direction : Z) (s : GameService) :
  sameTrack s (moveLanes direction s).
Proof.
  unfold moveLanes. destruct (negb _); [| split; reflexivity].
  eapply sameTrack_trans; [| apply animateLaneChange_sameTrack].
  split; reflexivity.
Qed.

Lemma animateJump_sameTrack (sinPi : Q -> Q) (initialY p : Q) (s : GameService) :
  sameTrack s (animateJump sinPi initialY p s).
Proof.
  unfold animateJump. destruct (Qltb _ 1); split; reflexivity.
Qed.

Lemma jump_sameTrack (sinPi : Q -> Q) (s : GameService) :
  sameTrack s (jump sinPi s).
Proof.
  unfold jump. destruct (isJumping s); [split; reflexivity |].
  eapply sameTrack_trans; [| apply animateJump_sameTrack].
  split; reflexivity.
Qed.

Lemma handleKeyDown_sameTrack (sinPi : Q -> Q) (key : string) (s : GameService) :
  sameTrack s (handleKeyDown sinPi key s).
Proof.
  unfold handleKeyDown.
  repeat match goal with |- context [if ?b then _ else _] => destruct b end;
    try (split; reflexivity);
    auto using moveLanes_sameTrack, jump_sameTrack.
Qed.

Lemma updateGame_active (random : nat -> Q) (s : GameService) :
  phase s = Active ->
  updateGame random s =
  increaseScore 0.1 (updateCoins (updateObstacles (advanceTrack random s))).
Proof.
  intros H. apply phase_Active in H. unfold updateGame. rewrite H. reflexivity.
Qed.

Lemma advanceTrack_track (random : nat -> Q) (s : GameService) :
  let next := trackPosition s + (speed s + 0.00005) in
  speed (advanceTrack random s) = speed s + 0.00005 /\
  trackPosition (advanceTrack random s) =
    if Qle_bool (trackLength - 20) next then 0 else next.
Proof.
  cbv zeta. unfold advanceTrack.
  cbn [speed trackPosition set_speed set_trackPosition].
  destruct (Qle_bool _ _); [| split; reflexivity].
  match goal with |- context [generateObstaclesAndCoins random ?t] =>
    destruct (generateObstaclesAndCoins_same random t) as (_ & (Hs & Ht) & _)
  end.
  rewrite Hs, Ht. split; reflexivity.
Qed.

Lemma updateGame_track (random : nat -> Q) (s : GameService) :
  phase s = Active ->
  let next := trackPosition s + (speed s + 0.00005) in
  speed (updateGame random s) = speed s + 0.00005 /\
  trackPosition (updateGame random s) =
    if Qle_bool (trackLength - 20) next then 0 else next.
Proof.
  intros H. cbv zeta. rewrite (updateGame_active random s H).
  destruct (advanceTrack_track random s) as [Hs Ht].
  set (a := advanceTrack random s) in *.
  destruct (updateObstacles_same a) as (_ & Hs1 & Ht1).
  destruct (updateCoins_same (updateObstacles a)) as (_ & Hs2 & Ht2).
  cbn [increaseScore speed trackPosition set_score].
  rewrite Hs2, Ht2, Hs1, Ht1. split; assumption.
Qed.

Lemma trackInv_sameTrack (s s' : GameService) :
  sameTrack s s' -> trackInv s -> trackInv s'.
Proof. unfold sameTrack, trackInv. intros [-> ->]. tauto. Qed.

Lemma trackLength_margin : trackLength - 20 == 480.
Proof. reflexivity. Qed.

Lemma updateGame_trackInv (random : nat -> Q) (s : GameService) :
  trackInv s -> trackInv (updateGame random s).
Proof.
  intros Hinv.
  destruct (phase s) eqn:Hp.
  - unfold updateGame. rewrite not_Active_guard; [exact Hinv |].
    rewrite Hp. discriminate.
  - destruct (updateGame_track random s Hp) as [Hs Ht]. cbv zeta in Ht.
    unfold trackInv in *. rewrite Hs, Ht.
    destruct Hinv as (H0 & H1 & H2).
    destruct (Qle_bool _ _) eqn:E.
    + rewrite trackLength_margin. repeat split; lra.
    + apply Qle_bool_gt in E. repeat split; lra.
  - unfold updateGame. rewrite not_Active_guard; [exact Hinv |].
    rewrite Hp. discriminate.
Qed.

Lemma restartGame_track (random : nat -> Q) (s : GameService) :
  speed (restartGame random s) = 0.2 /\
  trackPosition (restartGame random s) = 0.
Proof.
  unfold restartGame. cbn [speed trackPosition set_gameState].
  match goal with |- context [generateObstaclesAndCoins random ?t] =>
    destruct (generateObstaclesAndCoins_same random t) as (_ & (Hs & Ht) & _)
  end.
  rewrite Hs, Ht. split; reflexivity.
Qed.

Lemma restartGame_trackInv (random : nat -> Q) (s : GameService) :
  trackInv (restartGame random s).
Proof.
  destruct (restartGame_track random s) as [Hs Ht].
  unfold trackInv. rewrite Hs, Ht, trackLength_margin. repeat split; lra.
Qed.

Section TrackInvariant.

Variable random : nat -> Q.
Variable sinPi : Q -> Q.

Import GameComponent.

Lemma animate_trackInv (c : GameComponent.t) :
  trackInv (gameService c) -> trackInv (gameService (animate random c)).
Proof.
  intros H. unfold animate, requestAnimationFrame, onService.
  cbn [gameService]. apply updateGame_trackInv. exact H.
Qed.

Lemma runCallback_trackInv (c : GameComponent.t) (cb : FrameCallback) :
  trackInv (gameService c) ->
  trackInv (gameService (runCallback random sinPi c cb)).
Proof.
  intros H. destruct cb; cbn [runCallback onService gameService].
  - eapply trackInv_sameTrack; [apply animateLaneChange_sameTrack | exact H].
  - eapply trackInv_sameTrack; [apply animateJump_sameTrack | exact H].
  - apply animate_trackInv, H.
Qed.

Lemma runCallbacks_trackInv (queue : list FrameCallback) (c : GameComponent.t) :
  trackInv (gameService c) ->
  trackInv (gameService (fold_left (runCallback random sinPi) queue c)).
Proof.
  revert c. induction queue as [|cb queue IH]; intros c H; cbn.
  - exact H.
  - apply IH, runCallback_trackInv, H.
Qed.

Lemma step_trackInv (c : GameComponent.t) (e : Event) :
  trackInv (gameService c) ->
  trackInv (gameService (step random sinPi c e)).
Proof.
  intros H. destruct e; cbn [step].
  - unfold frame. apply runCallbacks_trackInv. exact H.
  - unfold GameComponent.handleKeyDown. cbn [onService gameService].
    eapply trackInv_sameTrack; [apply handleKeyDown_sameTrack | exact H].
  - unfold GameComponent.startGame. apply animate_trackInv. exact H.
  - unfold GameComponent.restartGame.
    destruct (_ =? 0)%nat.
    + apply animate_trackInv. cbn [onService gameService].
      apply restartGame_trackInv.
    + cbn [onService gameService]. apply restartGame_trackInv.
Qed.

Lemma run_trackInv (es : list Event) (c : GameComponent.t) :
  trackInv (gameService c) ->
  trackInv (gameService (run random sinPi es c)).
Proof.
  unfold run. revert c. induction es as [|e es IH]; intros c H; cbn.
  - exact H.
  - apply IH, step_trackInv, H.
Qed.

Lemma ngAfterViewInit_trackInv (seed : nat) :
  trackInv (gameService (ngAfterViewInit random seed)).
Proof.
  cbn [ngAfterViewInit gameService].
  destruct (initGame_fields random seed) as (_ & _ & Hs & Ht & _).
  unfold trackInv. rewrite Hs, Ht, trackLength_margin. repeat split; lra.
Qed.

End TrackInvariant.

(** ** Layout generator: rows *)

Lemma StronglySorted_snoc {A : Type} (R : A -> A -> Prop) (l : list A) (a : A) :
  StronglySorted R l -> Forall (fun b => R b a) l ->
  StronglySorted R (l ++ [a]).
Proof.
  induction 1 as [|b l Hs IH Hb]; intros Hf; cbn.
  - constructor; constructor.
  - inversion Hf; subst. constructor.
    + apply IH. assumption.
    + apply Forall_app. split; [assumption | constructor; [assumption | constructor]].
Qed.



Lemma rowGap_filter (zr : Q) (l : list Object3D) :
  StronglySorted rowGap l ->
  (List.length (filter (fun o => Qeq_bool (Vector3.z (position o)) zr) l) <= 1)%nat.
Proof.
  induction 1 as [|a l Hs IH Ha]; cbn; [lia |].
  destruct (Qeq_bool (Vector3.z (position a)) zr) eqn:E; [| exact IH].
  apply Qeq_bool_iff in E.
  assert (Hn : filter (fun o => Qeq_bool (Vector3.z (position o)) zr) l = []).
  { clear IH Hs. induction l as [|b l IHl]; cbn; [reflexivity |].
    inversion Ha as [|? ? Hb Hl]; subst.
    destruct (Qeq_bool (Vector3.z (position b)) zr) eqn:Eb.
    - apply Qeq_bool_iff in Eb. unfold rowGap in Hb. lra.
    - apply IHl, Hl. }
  rewrite Hn. cbn. lia.
Qed.

Section Generator.

Variable random : nat -> Q.
Hypothesis random_range : forall n, 0 <= random n /\ random n < 1.

(** [Math.floor (Math.random() * 3)] is 0, 1 or 2. *)
Lemma random_lane (n : nat) : (0 <= Qfloor (random n * 3) <= 2)%Z.
Proof.
  destruct (random_range n) as [H0 H1]. split.
  - change 0%Z with (Qfloor 0). apply Qfloor_resp_le. lra.
  - assert (H : (Qfloor (random n * 3) < 3)%Z); [| lia].
    rewrite Zlt_Qlt.
    apply Qle_lt_trans with (random n * 3); [apply Qfloor_le | ].
    change (inject_Z 3) with 3. lra.
Qed.

(** *** Enough fuel *)

Lemma generateRows_complete (fuel m : nat) (z : Q) (s : GameService) :
  z <= -490 + 5 * inject_Z (Z.of_nat fuel) ->
  generateRows random (fuel + m) z s = generateRows random fuel z s.
Proof.
  revert z s. induction fuel as [|fuel IH]; intros z s Hz.
  - cbn [generateRows Nat.add]. destruct m as [|m]; [reflexivity |].
    cbn [generateRows].
    assert (E : Qltb (- trackLength + 15) z = false).
    { apply Qltb_ge. unfold trackLength.
      change (inject_Z (Z.of_nat 0)) with 0 in Hz. lra. }
    rewrite E. reflexivity.
  - cbn [generateRows Nat.add].
    destruct (Qltb (- trackLength + 15) z); [| reflexivity].
    unfold Math_random. apply IH.
    destruct (random_range (randomCalls (generateRow random z s))) as [H0 _].
    rewrite Nat2Z.inj_succ, <- Z.add_1_r, inject_Z_plus in Hz.
    change (inject_Z 1) with 1 in Hz. lra.
Qed.

(** With draws in [[0, 1)] the loop of [generateObstaclesAndCoins] leaves
    through its own test: more fuel than [rowFuel] changes nothing. *)
Lemma generateObstaclesAndCoins_complete (m : nat) (s : GameService) :
  generateRows random (rowFuel + m) (-15)
    (set_coins [] (set_obstacles [] s)) =
  generateObstaclesAndCoins random s.
Proof.
  unfold generateObstaclesAndCoins. apply generateRows_complete.
  vm_compute. discriminate.
Qed.

(** *** One obstacle per row *)

Lemma createObstacle_obstacles (x z : Q) (s : GameService) :
  exists o, obstacles (createObstacle random x z s) = obstacles s ++ [o] /\
            Vector3.x (position o) = x /\ Vector3.z (position o) = z.
Proof.
  unfold createObstacle, Math_random.
  repeat match goal with |- context [if ?b then _ else _] => destruct b end;
    eexists; repeat split.
Qed.

Lemma placeCoin_obstacles (l : Z) (z : Q) (s : GameService) (lane : Z) :
  obstacles (placeCoin random l z s lane) = obstacles s.
Proof.
  unfold placeCoin, createCoin, Math_random.
  repeat match goal with |- context [if ?b then _ else _] => destruct b end;
    reflexivity.
Qed.

Lemma placeCoins_obstacles (l : Z) (z : Q) (ls : list Z) (s : GameService) :
  obstacles (fold_left (placeCoin random l z) ls s) = obstacles s.
Proof.
  revert s. induction ls as [|lane ls IH]; intros s; cbn; [reflexivity |].
  rewrite IH. apply placeCoin_obstacles.
Qed.

Lemma generateRow_obstacles (z : Q) (s : GameService) :
  exists o, obstacles (generateRow random z s) = obstacles s ++ [o] /\
            Vector3.z (position o) = z /\
            exists lane, (0 <= lane <= 2)%Z /\
                         Vector3.x (position o) = lanes_at lane.
Proof.
  unfold generateRow, Math_random. rewrite placeCoins_obstacles.
  match goal with |- context [createObstacle random ?x z ?t] =>
    destruct (createObstacle_obstacles x z t) as (o & Ho & Hx & Hz)
  end.
  exists o. split; [exact Ho |]. split; [exact Hz |].
  exists (Qfloor (random (randomCalls s) * 3)).
  split; [apply random_lane | exact Hx].
Qed.

Lemma generateRows_sorted (fuel : nat) (z : Q) (s : GameService) :
  StronglySorted rowGap (obstacles s) ->
  Forall (fun o => z <= Vector3.z (position o) - 5) (obstacles s) ->
  StronglySorted rowGap (obstacles (generateRows random fuel z s)).
Proof.
  revert z s. induction fuel as [|fuel IH]; intros z s Hs Hf;
    cbn [generateRows]; [exact Hs |].
  destruct (Qltb _ z); [| exact Hs].
  unfold Math_random.
  destruct (generateRow_obstacles z s) as (o & Ho & Hz & _).
  destruct (random_range (randomCalls (generateRow random z s))) as [H0 _].
  apply IH; cbn [obstacles set_randomCalls]; rewrite Ho.
  - apply StronglySorted_snoc; [exact Hs |].
    unfold rowGap. rewrite Hz. exact Hf.
  - apply Forall_app. split.
    + eapply Forall_impl; [| exact Hf]. cbv beta. intros a Ha. lra.
    + constructor; [| constructor]. rewrite Hz. lra.
Qed.

Lemma generated_sorted (s : GameService) :
  StronglySorted rowGap (obstacles (generateObstaclesAndCoins random s)).
Proof.
  unfold generateObstaclesAndCoins. apply generateRows_sorted; constructor.
Qed.

(** At most one of the three lane positions equals a given x. *)
Lemma one_lane_per_x (x : Q) :
  (List.length (filter (fun lane => Qeq_bool x (lanes_at lane)) [0; 1; 2]%Z)
   <= 1)%nat.
Proof.
  cbn [filter].
  change (lanes_at 0) with (-2). change (lanes_at 1) with 0.
  change (lanes_at 2) with 2.
  destruct (Qeq_bool x (-2)) eqn:E0;
    destruct (Qeq_bool x 0) eqn:E1;
    destruct (Qeq_bool x 2) eqn:E2; cbn [List.length]; try lia;
    repeat match goal with H : Qeq_bool _ _ = true |- _ =>
             apply Qeq_bool_iff in H end;
    exfalso; lra.
Qed.

(** C9 -- with draws in [[0, 1)], every pass of the generator's loop adds
    exactly one obstacle, in one of the three lanes of its row; successive
    rows are at least 5 apart, so in the generated lap a row holds at most
    one obstacle: at most one lane of it is blocked (never all three) and at
    least two are left to coins or empty.  Every obstacle is alone in its
    row, and the lap is the whole lap: the loop ends by its own test, more
    fuel adds nothing. *)
Theorem generated_rows_one_obstacle (s : GameService) :
  let lap := generateObstaclesAndCoins random s in
  (forall (z : Q) (s0 : GameService),
     exists o, obstacles (generateRow random z s0) = obstacles s0 ++ [o] /\
               Vector3.z (position o) = z /\
               exists lane, (0 <= lane <= 2)%Z /\
                            Vector3.x (position o) = lanes_at lane) /\
  StronglySorted rowGap (obstacles lap) /\
  (forall zr : Q,
     (List.length (rowObstacles zr lap) <= 1)%nat /\
     (List.length (blockedLanes zr lap) <= 1)%nat /\
     (2 <= List.length (freeLanes zr lap))%nat) /\
  (forall o : Object3D,
     In o (obstacles lap) ->
     List.length (rowObstacles (Vector3.z (position o)) lap) = 1%nat) /\
  (forall extra : nat,
     generateRows random (rowFuel + extra) (-15)
       (set_coins [] (set_obstacles [] s)) = lap).
Proof.
  intros lap.
  assert (Hsorted : StronglySorted rowGap (obstacles lap))
    by apply generated_sorted.
  assert (Hfuel : forall extra : nat,
            generateRows random (rowFuel + extra) (-15)
              (set_coins [] (set_obstacles [] s)) = lap)
    by (intros extra; apply generateObstaclesAndCoins_complete).
  clearbody lap.
  assert (Hrow : forall zr, (List.length (rowObstacles zr lap) <= 1)%nat)
    by (intros zr; apply rowGap_filter, Hsorted).
  assert (Hblocked : forall zr, (List.length (blockedLanes zr lap) <= 1)%nat).
  { intros zr. unfold blockedLanes, laneBlocked.
    specialize (Hrow zr).
    destruct (rowObstacles zr lap) as [|o [|o' l]]; cbn [existsb].
    - cbn [filter List.length]. lia.
    - erewrite filter_ext; [apply (one_lane_per_x (Vector3.x (position o))) |].
      intros lane. apply orb_false_r.
    - cbn [List.length] in Hrow. lia. }
  split; [exact generateRow_obstacles |]. split; [exact Hsorted |].
  split; [| split; [| exact Hfuel]].
  - intros zr. split; [apply Hrow |]. split; [apply Hblocked |].
    specialize (Hblocked zr).
    pose proof (filter_length (laneBlocked zr lap) [0; 1; 2]%Z) as Hlen.
    unfold blockedLanes in Hblocked. unfold freeLanes.
    cbn [List.length] in Hlen. lia.
  - intros o Ho. specialize (Hrow (Vector3.z (position o))).
    assert (Hin : In o (rowObstacles (Vector3.z (position o)) lap)).
    { unfold rowObstacles. apply filter_In. split; [exact Ho |].
      apply Qeq_bool_iff. reflexivity. }
    destruct (rowObstacles _ lap) as [|a [|b l]];
      cbn [List.length In] in *; [tauto | lia | lia].
Qed.

End Generator.

Lemma sampleRandom_range (n : nat) : 0 <= sampleRandom n /\ sampleRandom n < 1.
Proof.
  unfold sampleRandom.
  pose proof (Nat.mod_upper_bound (n * n + n / 7) 16) as H.
  unfold Qle, Qlt. cbn [Qnum Qden]. lia.
Qed.

Lemma generated_rows_one_obstacle_witness :
  (List.length (blockedLanes (-15) sampleLap) <= 1)%nat /\
  (2 <= List.length (freeLanes (-15) sampleLap))%nat.
Proof.
  destruct (generated_rows_one_obstacle sampleRandom sampleRandom_range
              (newGameService 0)) as (_ & _ & H & _ & _).
  destruct (H (-15)) as (_ & Hb & Hf).
  exact (conj Hb Hf).
Defined.

(** ** Jump animation *)








Lemma updateGame_sameMotion (random : nat -> Q) (s : GameService) :
  sameMotion s (updateGame random s).
Proof.
  unfold updateGame. destruct (_ || _); [repeat split |].
  fold (advanceTrack random s).
  assert (Ha : sameMotion s (advanceTrack random s)).
  { unfold advanceTrack. destruct (Qle_bool _ _); [| repeat split].
    match goal with |- context [generateObstaclesAndCoins random ?t] =>
      destruct (generateObstaclesAndCoins_same random t) as (H & _)
    end.
    unfold sameMotion in *.
    cbn [player playerLane isJumping frameHandle frameRequests
         set_trackPosition set_speed] in H.
    exact H. }
  set (a := advanceTrack random s) in *.
  destruct (updateObstacles_same a) as (Hb & _).
  destruct (updateCoins_same (updateObstacles a)) as (Hc & _).
  unfold sameMotion in *.
  cbn [increaseScore player playerLane isJumping frameHandle frameRequests
       set_score].
  decompose [and] Ha. decompose [and] Hb. decompose [and] Hc.
  repeat split; congruence.
Qed.



Lemma filter_singleton {A : Type} (f : A -> bool) (l : list A) (a : A) :
  filter f l = [a] ->
  exists l1 l2, l = l1 ++ a :: l2 /\ filter f l1 = [] /\ filter f l2 = [].
Proof.
  induction l as [|b l IH]; cbn; [discriminate |].
  destruct (f b) eqn:E.
  - intros H. injection H as -> Hl. exists [], l. auto.
  - intros H. destruct (IH H) as (l1 & l2 & -> & H1 & H2).
    exists (b :: l1), l2. cbn. rewrite E. auto.
Qed.




(** In doubles the counter of the jump takes the same branch as the
    rational at every step of the animation: the first nineteen sums of 0.05
    are below 1 and the twentieth (1.0000000000000002) is not. *)
Lemma jumpProgress_in_doubles (k : nat) :
  (k <= 18)%nat ->
  PrimFloat.ltb (PrimFloat.add (jumpProgressDouble k) 0.05%float) 1%float
  = Qltb (jumpProgressAfter k + 0.05) 1.
Proof.
  intros H. do 19 (destruct k as [|k]; [vm_compute; reflexivity |]). lia.
Qed.

(** [restartGame] clears the jump flag and grounds the player but leaves the
    frame queue alone: a jump closure requested before the restart is still
    pending after it.  The statements on jumps below therefore ask for an
    empty set of pending jump closures and for no restart on the way. *)
Lemma restartGame_keeps_requests (random : nat -> Q) (s : GameService) :
  isJumping (restartGame random s) = false /\
  Vector3.y (player (restartGame random s)) = 0 /\
  frameRequests (restartGame random s) = frameRequests s.
Proof.
  unfold restartGame. cbn [isJumping player frameRequests set_gameState].
  match goal with |- context [generateObstaclesAndCoins random ?t] =>
    destruct (generateObstaclesAndCoins_same random t)
      as ((Hp & _ & Hj & _ & Hq) & _)
  end.
  rewrite Hp, Hj, Hq. repeat split.
Qed.

Section JumpFrames.

Variable random : nat -> Q.
Variable sinPi : Q -> Q.

Import GameComponent.








End JumpFrames.



(** * Further properties *)

(** ** The entity loops of [updateGame] *)

(** The overlap test reads the player's position and the jump flag only. *)
Lemma isPlayerColliding_ext (s s' : GameService) (o : Object3D) :
  player s' = player s -> isJumping s' = isJumping s ->
  isPlayerColliding s' o = isPlayerColliding s o.
Proof.
  intros Hp Hj.
  unfold isPlayerColliding, xCollision, yCollision, zCollision, playerHeight.
  rewrite Hp, Hj. reflexivity.
Qed.

Lemma moveCoins_spec (cs : list Object3D) (s : GameService) :
  fst (moveCoins cs s) =
    filter (fun c => negb (isPlayerColliding s c)) (map (tickCoin (speed s)) cs) /\
  score (snd (moveCoins cs s)) ==
    score s + 10 * inject_Z (Z.of_nat (List.length cs)
                             - Z.of_nat (List.length (fst (moveCoins cs s)))).
Proof.
  induction cs as [|c cs IH].
  - cbn. split; [reflexivity | ring].
  - cbn [moveCoins map filter].
    destruct (moveCoins_same cs s) as ((Hp & _ & Hj & _) & (Hs & _) & _).
    destruct (moveCoins cs s) as [kept s1]. cbn [fst snd] in *.
    destruct IH as [IHk IHs].
    rewrite (isPlayerColliding_ext s s1) by assumption.
    rewrite Hs. fold (tickCoin (speed s) c).
    destruct (isPlayerColliding s (tickCoin (speed s) c));
      cbn [negb fst snd increaseScore score set_score List.length].
    + split; [exact IHk |]. rewrite IHs.
      rewrite Nat2Z.inj_succ, <- Z.add_1_r.
      unfold Zminus. rewrite !inject_Z_plus, !inject_Z_opp.
      change (inject_Z 1) with 1. ring.
    + split; [rewrite IHk; reflexivity |]. rewrite IHs.
      rewrite !Nat2Z.inj_succ, <- !Z.add_1_r.
      unfold Zminus. rewrite !inject_Z_plus, !inject_Z_opp, !inject_Z_plus.
      change (inject_Z 1) with 1. ring.
Qed.

Lemma existsb_eq_ext {A : Type} (f g : A -> bool) (l : list A) :
  (forall a, f a = g a) -> existsb f l = existsb g l.
Proof.
  intros H. induction l as [|a l IH]; cbn; [reflexivity |].
  rewrite H, IH. reflexivity.
Qed.

Lemma moveObstacles_spec (os : list Object3D) (s : GameService) :
  fst (moveObstacles os s) = map (advance (speed s)) os /\
  gameState (snd (moveObstacles os s)) =
    if existsb (isPlayerColliding s) (map (advance (speed s)) os)
    then mkGameState true false else gameState s.
Proof.
  revert s. induction os as [|o os IH]; intros s.
  - cbn. split; reflexivity.
  - cbn [moveObstacles map existsb].
    set (s1 := if isPlayerColliding s (advance (speed s) o)
               then gameOver s else s).
    assert (Hp : player s1 = player s /\ isJumping s1 = isJumping s /\
                 speed s1 = speed s).
    { subst s1. destruct (isPlayerColliding s _); repeat split. }
    destruct Hp as (Hp & Hj & Hs).
    destruct (IH s1) as [IH1 IH2].
    destruct (moveObstacles os s1) as [rest' s2]. cbn [fst snd] in *.
    rewrite Hs in IH1, IH2.
    rewrite (existsb_eq_ext _ (isPlayerColliding s)) in IH2
      by (intros a; apply isPlayerColliding_ext; assumption).
    split; [rewrite IH1; reflexivity |].
    rewrite IH2. subst s1.
    destruct (isPlayerColliding s (advance (speed s) o)); cbn [orb].
    + destruct (existsb _ _); reflexivity.
    + reflexivity.
Qed.

Section Tick.

Variable random : nat -> Q.

Lemma advanceTrack_same (s : GameService) :
  sameMotion s (advanceTrack random s) /\
  sameRun s (advanceTrack random s).
Proof.
  unfold advanceTrack. destruct (Qle_bool _ _); [| repeat split].
  match goal with |- context [generateObstaclesAndCoins random ?t] =>
    destruct (generateObstaclesAndCoins_same random t) as (Hm & _ & Hr)
  end.
  unfold sameMotion, sameRun in *.
  cbn [player playerLane isJumping frameHandle frameRequests score gameState
       set_trackPosition set_speed] in Hm, Hr.
  split; assumption.
Qed.

Lemma advanceTrack_keeps_entities (s : GameService) :
  trackPosition s + (speed s + 0.00005) < trackLength - 20 ->
  obstacles (advanceTrack random s) = obstacles s /\
  coins (advanceTrack random s) = coins s /\
  randomCalls (advanceTrack random s) = randomCalls s.
Proof.
  intros H. apply Qle_bool_gt in H. unfold advanceTrack.
  cbn [speed trackPosition set_speed set_trackPosition].
  rewrite H. repeat split.
Qed.

(** X1 -- the obstacle loop inside a tick: every obstacle of the lap in play
    moves by the new speed, none is removed, and the run ends exactly when
    one of them then overlaps the player. *)
Theorem updateGame_obstacles (s : GameService) :
  phase s = Active ->
  let lap := advanceTrack random s in
  let v := speed s + 0.00005 in
  obstacles (updateGame random s) = map (advance v) (obstacles lap) /\
  phase (updateGame random s) =
    (if existsb (isPlayerColliding s) (obstacles (updateGame random s))
     then GameOver else Active) /\
  (trackPosition s + v < trackLength - 20 ->
   obstacles (updateGame random s) = map (advance v) (obstacles s)).
Proof.
  intros Hp lap v.
  assert (Hv : speed lap = v)
    by (apply (proj1 (advanceTrack_track random s))).
  destruct (advanceTrack_same s) as ((Hpl & _ & Hj & _) & (_ & Hg)).
  fold lap in Hpl, Hj, Hg.
  rewrite (updateGame_active random s Hp). fold lap.
  cbn [increaseScore obstacles gameState set_score phase].
  unfold phase. cbn [gameState increaseScore set_score].
  unfold updateCoins.
  destruct (moveCoins_same (coins (updateObstacles lap)) (updateObstacles lap))
    as (_ & _ & Hg2 & Ho2 & _).
  destruct (moveCoins (coins (updateObstacles lap)) (updateObstacles lap))
    as [kept s2]. cbn [snd] in Hg2, Ho2.
  cbn [obstacles gameState set_coins]. rewrite Hg2, Ho2.
  unfold updateObstacles.
  destruct (moveObstacles_spec (obstacles lap) lap) as [Hm Hgs].
  destruct (moveObstacles (obstacles lap) lap) as [moved s1].
  cbn [fst snd] in Hm, Hgs. cbn [obstacles gameState set_obstacles].
  rewrite Hgs, Hm, Hv.
  rewrite (existsb_eq_ext (isPlayerColliding lap) (isPlayerColliding s))
    by (intros a; apply isPlayerColliding_ext; assumption).
  clear Hgs. split; [reflexivity |]. split.
  - destruct (existsb (isPlayerColliding s) _); [reflexivity |].
    rewrite Hg. exact Hp.
  - intros Hlt.
    destruct (advanceTrack_keeps_entities s Hlt) as (Ho & _).
    fold lap in Ho. rewrite Ho. reflexivity.
Qed.


(** The coin loop and the score of an Active tick. *)
Lemma updateGame_coins_spec (s : GameService) :
  phase s = Active ->
  coins (updateGame random s) =
    filter (fun c => negb (isPlayerColliding s c))
      (map (tickCoin (speed s + 0.00005)) (coins (advanceTrack random s))) /\
  score (updateGame random s) ==
    score s
    + 10 * inject_Z (Z.of_nat (List.length (coins (advanceTrack random s)))
                     - Z.of_nat (List.length (coins (updateGame random s))))
    + 0.1 /\
  (List.length (coins (updateGame random s))
   <= List.length (coins (advanceTrack random s)))%nat.
Proof.
  intros Hp. set (lap := advanceTrack random s). set (v := speed s + 0.00005).
  assert (Hv : speed lap = v)
    by (apply (proj1 (advanceTrack_track random s))).
  destruct (advanceTrack_same s) as ((Hpl & _ & Hj & _) & (Hsc & _)).
  fold lap in Hpl, Hj, Hsc.
  rewrite (updateGame_active random s Hp). fold lap.
  cbn [increaseScore coins score set_score].
  unfold updateCoins.
  set (u := updateObstacles lap).
  assert (Hu : player u = player lap /\ isJumping u = isJumping lap /\
               speed u = speed lap /\ score u = score lap /\
               coins u = coins lap).
  { subst u. unfold updateObstacles.
    destruct (moveObstacles_same (obstacles lap) lap)
      as ((H1 & _ & H2 & _) & (H3 & _) & H4 & H5 & _).
    destruct (moveObstacles (obstacles lap) lap) as [moved s1].
    cbn [snd] in *. cbn [player isJumping speed score coins set_obstacles].
    repeat split; assumption. }
  destruct Hu as (Hup & Huj & Hus & Husc & Huc).
  destruct (moveCoins_spec (coins u) u) as [Hk Hs].
  destruct (moveCoins (coins u) u) as [kept s2]. cbn [fst snd] in Hk, Hs.
  cbn [coins score set_coins].
  assert (Hkept : kept =
            filter (fun c => negb (isPlayerColliding s c))
              (map (tickCoin v) (coins lap))).
  { rewrite Hk, Huc, Hus, Hv. apply filter_ext. intros c. f_equal.
    apply isPlayerColliding_ext; congruence. }
  assert (Hlen : (List.length kept <= List.length (coins lap))%nat).
  { rewrite Hkept.
    etransitivity; [apply filter_length_le | rewrite length_map; lia]. }
  split; [exact Hkept |]. split; [| exact Hlen].
  rewrite Hs, Husc, Hsc, Huc. reflexivity.
Qed.

(** X2 -- the coin loop inside a tick: the coins left are, in their order,
    the coins of the lap in play that do not overlap the player once moved
    and turned; each coin removed adds exactly 10 to the score, and the tick
    adds 0.1 on top, also when the same tick ends the run.  The score never
    goes down. *)
Theorem updateGame_coins_and_score (s : GameService) :
  phase s = Active ->
  let lap := advanceTrack random s in
  let v := speed s + 0.00005 in
  coins (updateGame random s) =
    filter (fun c => negb (isPlayerColliding s c))
      (map (tickCoin v) (coins lap)) /\
  score (updateGame random s) ==
    score s
    + 10 * inject_Z (Z.of_nat (List.length (coins lap))
                     - Z.of_nat (List.length (coins (updateGame random s))))
    + 0.1 /\
  score s + 0.1 <= score (updateGame random s) /\
  (trackPosition s + v < trackLength - 20 -> coins lap = coins s).
Proof.
  intros Hp lap v.
  destruct (updateGame_coins_spec s Hp) as (Hc & Hs & Hlen).
  fold lap v in Hc, Hs, Hlen.
  split; [exact Hc |]. split; [exact Hs |]. split.
  - rewrite Hs.
    assert (Hz : 0 <= inject_Z
                   (Z.of_nat (List.length (coins lap))
                    - Z.of_nat (List.length (coins (updateGame random s))))).
    { change 0 with (inject_Z 0). rewrite <- Zle_Qle. lia. }
    lra.
  - intros Hlt. apply (advanceTrack_keeps_entities s Hlt).
Qed.

End Tick.

Lemma updateGame_obstacles_witness :
  phase (updateGame sampleRandom fatalTick) = GameOver /\
  List.length (obstacles (updateGame sampleRandom fatalTick)) = 2%nat.
Proof.
  destruct (updateGame_obstacles sampleRandom fatalTick eq_refl)
    as (Ho & Hph & _).
  rewrite Hph, Ho. vm_compute. split; reflexivity.
Defined.

Lemma updateGame_coins_and_score_witness :
  List.length (coins (updateGame sampleRandom fatalTick)) = 1%nat /\
  score fatalTick + 0.1 <= score (updateGame sampleRandom fatalTick).
Proof.
  destruct (updateGame_coins_and_score sampleRandom fatalTick eq_refl)
    as (Hc & _ & Hle & _).
  split; [| exact Hle].
  rewrite Hc. vm_compute. reflexivity.
Defined.

(** ** Invariants of the display refresh *)

Section Preservation.

Variable random : nat -> Q.
Variable sinPi : Q -> Q.

Import GameComponent.

(** A property of the service that the two animation closures, the frame
    bookkeeping and [updateGame] keep is kept by a whole refresh. *)
Lemma frame_preserves (P : GameService -> Prop) :
  (forall s a b p, P s -> P (animateLaneChange a b p s)) ->
  (forall s i p, P s -> P (animateJump sinPi i p s)) ->
  (forall s, P s -> P (updateGame random s)) ->
  (forall s q h, P s -> P (set_frameRequests q (set_frameHandle h s))) ->
  (forall s q, P s -> P (set_frameRequests q s)) ->
  forall c, P (gameService c) -> P (gameService (frame random sinPi c)).
Proof.
  intros Hl Hj Hu Hq Hq' c Hc. unfold frame.
  assert (H0 : P (gameService (onService (set_frameRequests []) c)))
    by (cbn [onService gameService]; apply Hq', Hc).
  revert H0. generalize (onService (set_frameRequests []) c).
  induction (frameRequests (gameService c)) as [|cb queue IH];
    intros c0 H0; cbn [fold_left]; [exact H0 |].
  apply IH. destruct cb; cbn [runCallback onService gameService].
  - apply Hl, H0.
  - apply Hj, H0.
  - unfold animate, requestAnimationFrame. cbn [onService gameService].
    apply Hu, Hq, H0.
Qed.

Lemma run_preserves (P : GameService -> Prop) (ok : Event -> bool) :
  (forall c e, ok e = true -> P (gameService c) ->
               P (gameService (step random sinPi c e))) ->
  forall es c, forallb ok es = true -> P (gameService c) ->
               P (gameService (run random sinPi es c)).
Proof.
  intros Hstep es. unfold run.
  induction es as [|e es IH]; intros c Hes Hc; cbn [fold_left]; [exact Hc |].
  cbn [forallb] in Hes. apply andb_true_iff in Hes. destruct Hes as [He Hes].
  apply IH; [exact Hes |]. apply Hstep; assumption.
Qed.

End Preservation.

(** ** What the closures and the keys leave alone *)

Ltac by_cases :=
  repeat match goal with |- context [if ?b then _ else _] => destruct b end;
  cbn; repeat split; reflexivity.

Lemma sameWorld_refl (s : GameService) : sameWorld s s.
Proof. repeat split. Qed.

Lemma sameWorld_trans (a b c : GameService) :
  sameWorld a b -> sameWorld b c -> sameWorld a c.
Proof.
  unfold sameWorld. intros H1 H2.
  decompose [and] H1. decompose [and] H2. repeat split; congruence.
Qed.

Lemma animateLaneChange_sameWorld (a b : Q) (p : float) (s : GameService) :
  sameWorld s (animateLaneChange a b p s).
Proof.
  unfold sameWorld, animateLaneChange, requestAnimationFrame. by_cases.
Qed.

Lemma animateJump_sameWorld (sinPi : Q -> Q) (i p : Q) (s : GameService) :
  sameWorld s (animateJump sinPi i p s).
Proof.
  unfold sameWorld, animateJump, requestAnimationFrame. by_cases.
Qed.

Lemma jump_sameWorld (sinPi : Q -> Q) (s : GameService) :
  sameWorld s (jump sinPi s).
Proof.
  unfold jump. destruct (isJumping s); [apply sameWorld_refl |].
  eapply sameWorld_trans; [| apply animateJump_sameWorld]. repeat split.
Qed.

(** A key changes at most the lane, the player's position, the jump flag
    and the frame queue. *)
Lemma handleKeyDown_keeps (sinPi : Q -> Q) (key : string) (s : GameService) :
  let s' := handleKeyDown sinPi key s in
  score s' = score s /\ gameState s' = gameState s /\ speed s' = speed s /\
  trackPosition s' = trackPosition s /\ obstacles s' = obstacles s /\
  coins s' = coins s /\ randomCalls s' = randomCalls s.
Proof.
  cbv zeta. unfold handleKeyDown.
  destruct (_ || _); [repeat split |].
  destruct (keyIn key leftKeys);
    [unfold moveLanes, animateLaneChange, requestAnimationFrame; by_cases |].
  destruct (keyIn key rightKeys);
    [unfold moveLanes, animateLaneChange, requestAnimationFrame; by_cases |].
  destruct (keyIn key jumpKeys); [| repeat split].
  destruct (jump_sameWorld sinPi s) as (H1 & H2 & _ & H3 & H4 & H5 & H6 & H7).
  repeat split; assumption.
Qed.

Lemma handleKeyDown_lane (sinPi : Q -> Q) (key : string) (s : GameService) :
  (0 <= playerLane s <= 2)%Z ->
  (0 <= playerLane (handleKeyDown sinPi key s) <= 2)%Z.
Proof.
  intros H. unfold handleKeyDown.
  destruct (_ || _); [exact H |].
  destruct (keyIn key leftKeys); [rewrite moveLanes_lane; lia |].
  destruct (keyIn key rightKeys); [rewrite moveLanes_lane; lia |].
  destruct (keyIn key jumpKeys); [| exact H].
  destruct (jump_sameWorld sinPi s) as (_ & _ & Hl & _). rewrite Hl. exact H.
Qed.

Lemma updateGame_speed_le (random : nat -> Q) (s : GameService) :
  speed s <= speed (updateGame random s).
Proof.
  destruct (phase s) eqn:Hp.
  - unfold updateGame. rewrite not_Active_guard by (rewrite Hp; discriminate).
    apply Qle_refl.
  - rewrite (proj1 (updateGame_track random s Hp)). lra.
  - unfold updateGame. rewrite not_Active_guard by (rewrite Hp; discriminate).
    apply Qle_refl.
Qed.

Lemma updateGame_score_le (random : nat -> Q) (s : GameService) :
  score s <= score (updateGame random s).
Proof.
  destruct (phase s) eqn:Hp.
  - unfold updateGame. rewrite not_Active_guard by (rewrite Hp; discriminate).
    apply Qle_refl.
  - destruct (updateGame_coins_spec random s Hp) as (_ & Hs & Hlen).
    rewrite Hs.
    assert (Hz : 0 <= inject_Z
                   (Z.of_nat (List.length (coins (advanceTrack random s)))
                    - Z.of_nat (List.length (coins (updateGame random s)))))
      by (change 0 with (inject_Z 0); rewrite <- Zle_Qle; lia).
    lra.
  - unfold updateGame. rewrite not_Active_guard by (rewrite Hp; discriminate).
    apply Qle_refl.
Qed.

Lemma handleKeyDown_not_active (sinPi : Q -> Q) (key : string) (s : GameService) :
  phase s <> Active -> handleKeyDown sinPi key s = s.
Proof.
  intros H. unfold handleKeyDown. rewrite not_Active_guard by exact H.
  reflexivity.
Qed.

Lemma restartGame_lane (random : nat -> Q) (s : GameService) :
  playerLane (restartGame random s) = 1%Z.
Proof.
  unfold restartGame. cbn [playerLane set_gameState].
  match goal with |- context [generateObstaclesAndCoins random ?t] =>
    destruct (generateObstaclesAndCoins_same random t) as ((_ & Hl & _) & _)
  end.
  rewrite Hl. reflexivity.
Qed.

Section RunInvariants.

Variable random : nat -> Q.
Variable sinPi : Q -> Q.

Import GameComponent.

(** X3 -- once the run is over, refreshes and keys change neither the phase, nor
    the score, the speed, the track position, the lane, the obstacles, the
    coins or the random cursor: only pending animation closures still move
    the player. *)
Theorem gameOver_is_terminal (c : GameComponent.t) (es : list Event) :
  phase (gameService c) = GameOver ->
  forallb isPassive es = true ->
  sameWorld (gameService c) (gameService (run random sinPi es c)) /\
  phase (gameService (run random sinPi es c)) = GameOver.
Proof.
  intros Hp Hes.
  assert (Hw : sameWorld (gameService c) (gameService (run random sinPi es c))).
  { apply (run_preserves random sinPi (sameWorld (gameService c)) isPassive);
      [| exact Hes | apply sameWorld_refl].
    intros c0 e He H0.
    assert (Hp0 : phase (gameService c0) <> Active).
    { unfold phase in *. rewrite (proj1 (proj2 H0)), Hp. discriminate. }
    destruct e; try discriminate; cbn [step].
    - apply (frame_preserves random sinPi (sameWorld (gameService c)));
        [| | | | | exact H0].
      + intros s a b p Hs. eapply sameWorld_trans;
          [exact Hs | apply animateLaneChange_sameWorld].
      + intros s i p Hs. eapply sameWorld_trans;
          [exact Hs | apply animateJump_sameWorld].
      + intros s Hs. unfold updateGame. rewrite not_Active_guard; [exact Hs |].
        unfold phase in *. rewrite (proj1 (proj2 Hs)), Hp. discriminate.
      + intros s q h Hs. exact Hs.
      + intros s q Hs. exact Hs.
    - unfold GameComponent.handleKeyDown. cbn [onService gameService].
      rewrite handleKeyDown_not_active by exact Hp0. exact H0. }
  split; [exact Hw |]. unfold phase in *. rewrite (proj1 (proj2 Hw)). exact Hp.
Qed.

(** X4 -- without a restart the speed never decreases, whatever else happens;
    under refreshes and keys the score never decreases either. *)
Theorem speed_and_score_monotone (c : GameComponent.t) (es : list Event) :
  (forallb (fun e => negb (isRestart e)) es = true ->
   speed (gameService c) <= speed (gameService (run random sinPi es c))) /\
  (forallb isPassive es = true ->
   score (gameService c) <= score (gameService (run random sinPi es c))).
Proof.
  split; intros Hes.
  - apply (run_preserves random sinPi
             (fun s => speed (gameService c) <= speed s)
             (fun e => negb (isRestart e)));
      [| exact Hes | apply Qle_refl].
    intros c0 e He H0.
    assert (Hanimate : forall c1, speed (gameService c) <= speed (gameService c1) ->
              speed (gameService c) <= speed (gameService (animate random c1))).
    { intros c1 H1. unfold animate, requestAnimationFrame.
      cbn [onService gameService].
      eapply Qle_trans; [exact H1 |].
      eapply Qle_trans; [| apply updateGame_speed_le]. apply Qle_refl. }
    destruct e; try discriminate; cbn [step].
    + apply (frame_preserves random sinPi
               (fun s => speed (gameService c) <= speed s));
        [| | | | | exact H0].
      * intros s a b p Hs.
        rewrite (proj1 (animateLaneChange_sameTrack a b p s)). exact Hs.
      * intros s i p Hs.
        rewrite (proj1 (animateJump_sameTrack sinPi i p s)). exact Hs.
      * intros s Hs. eapply Qle_trans; [exact Hs | apply updateGame_speed_le].
      * intros s q h Hs. exact Hs.
      * intros s q Hs. exact Hs.
    + unfold GameComponent.handleKeyDown. cbn [onService gameService].
      rewrite (proj1 (handleKeyDown_sameTrack sinPi key (gameService c0))).
      exact H0.
    + unfold GameComponent.startGame. apply Hanimate.
      cbn [onService gameService]. exact H0.
  - apply (run_preserves random sinPi
             (fun s => score (gameService c) <= score s) isPassive);
      [| exact Hes | apply Qle_refl].
    intros c0 e He H0.
    destruct e; try discriminate; cbn [step].
    + apply (frame_preserves random sinPi
               (fun s => score (gameService c) <= score s));
        [| | | | | exact H0].
      * intros s a b p Hs.
        rewrite (proj1 (animateLaneChange_sameWorld a b p s)). exact Hs.
      * intros s i p Hs.
        rewrite (proj1 (animateJump_sameWorld sinPi i p s)). exact Hs.
      * intros s Hs. eapply Qle_trans; [exact Hs | apply updateGame_score_le].
      * intros s q h Hs. exact Hs.
      * intros s q Hs. exact Hs.
    + unfold GameComponent.handleKeyDown. cbn [onService gameService].
      rewrite (proj1 (handleKeyDown_keeps sinPi key (gameService c0))).
      exact H0.
Qed.

(** X5 -- along every run of the game the lane is 0, 1 or 2, so [lanes] is never
    indexed out of range. *)
Theorem lane_always_valid (seed : nat) (es : list Event) :
  let s := gameService (run random sinPi es (ngAfterViewInit random seed)) in
  (0 <= playerLane s <= 2)%Z /\ In (lanes_at (playerLane s)) lanes.
Proof.
  intros s.
  assert (H : (0 <= playerLane s <= 2)%Z).
  { subst s.
    apply (run_preserves random sinPi
             (fun s => (0 <= playerLane s <= 2)%Z) (fun _ => true)).
    - intros c e _ H0.
      assert (Hanimate : forall c1, (0 <= playerLane (gameService c1) <= 2)%Z ->
                (0 <= playerLane (gameService (animate random c1)) <= 2)%Z).
      { intros c1 H1. unfold animate, requestAnimationFrame.
        cbn [onService gameService].
        rewrite (proj1 (proj2 (updateGame_sameMotion random _))). exact H1. }
      destruct e; cbn [step].
      + apply (frame_preserves random sinPi
                 (fun s => (0 <= playerLane s <= 2)%Z));
          [| | | | | exact H0].
        * intros s0 a b p Hs.
          rewrite (proj1 (proj2 (proj2 (animateLaneChange_sameWorld a b p s0)))).
          exact Hs.
        * intros s0 i p Hs.
          rewrite (proj1 (proj2 (proj2 (animateJump_sameWorld sinPi i p s0)))).
          exact Hs.
        * intros s0 Hs.
          rewrite (proj1 (proj2 (updateGame_sameMotion random s0))). exact Hs.
        * intros s0 q h Hs. exact Hs.
        * intros s0 q Hs. exact Hs.
      + unfold GameComponent.handleKeyDown. cbn [onService gameService].
        apply handleKeyDown_lane, H0.
      + unfold GameComponent.startGame. apply Hanimate.
        cbn [onService gameService]. exact H0.
      + unfold GameComponent.restartGame.
        destruct (_ =? 0)%nat.
        * apply Hanimate. cbn [onService gameService].
          rewrite restartGame_lane. lia.
        * cbn [onService gameService]. rewrite restartGame_lane. lia.
    - clear. induction es; [reflexivity | exact IHes].
    - cbn [ngAfterViewInit gameService].
      destruct (initGame_fields random seed) as (_ & _ & _ & _ & Hl & _).
      rewrite Hl. lia. }
  split; [exact H |].
  assert (E : playerLane s = 0%Z \/ playerLane s = 1%Z \/ playerLane s = 2%Z)
    by lia.
  destruct E as [-> | [-> | ->]]; cbn; auto.
Qed.

End RunInvariants.

Lemma gameOver_is_terminal_witness :
  score (GameComponent.gameService
           (GameComponent.run sampleRandom sampleSinPi
              [GameComponent.Refresh; GameComponent.KeyDown "w";
               GameComponent.Refresh] gameOverView)) = 3.
Proof.
  destruct (gameOver_is_terminal sampleRandom sampleSinPi gameOverView
              [GameComponent.Refresh; GameComponent.KeyDown "w";
               GameComponent.Refresh] eq_refl eq_refl) as ((Hs & _) & _).
  rewrite Hs. reflexivity.
Defined.

Lemma speed_and_score_monotone_witness :
  0.21 <= speed (GameComponent.gameService
                   (GameComponent.run sampleRandom sampleSinPi
                      eighteenRefreshes runningGame)) /\
  3 <= score (GameComponent.gameService
                (GameComponent.run sampleRandom sampleSinPi
                   eighteenRefreshes runningGame)).
Proof.
  destruct (speed_and_score_monotone sampleRandom sampleSinPi runningGame
              eighteenRefreshes) as [Hv Hs].
  exact (conj (Hv eq_refl) (Hs eq_refl)).
Defined.

(** ** The main loop stays armed *)

Lemma handleKeyDown_animate_requests
  (sinPi : Q -> Q) (key : string) (s : GameService) :
  filter isAnimateRequest (frameRequests (handleKeyDown sinPi key s)) =
  filter isAnimateRequest (frameRequests s).
Proof.
  unfold handleKeyDown, moveLanes, jump, animateLaneChange, animateJump,
    requestAnimationFrame.
  repeat match goal with |- context [if ?b then _ else _] => destruct b end;
    cbn [snd frameRequests set_player set_playerLane set_isJumping
         set_frameRequests set_frameHandle];
    rewrite ?filter_app; cbn [filter isAnimateRequest];
    rewrite ?app_nil_r; reflexivity.
Qed.

Section MainLoop.

Variable random : nat -> Q.
Variable sinPi : Q -> Q.

Import GameComponent.

Lemma armed_snoc (q : list FrameCallback) (cb : FrameCallback) :
  List.length (filter isAnimateRequest (q ++ [cb])) =
  (List.length (filter isAnimateRequest q)
   + if isAnimateRequest cb then 1 else 0)%nat.
Proof.
  rewrite filter_app, length_app. cbn [filter].
  destruct (isAnimateRequest cb); reflexivity.
Qed.

Lemma animate_armed (c : GameComponent.t) :
  armedLoops (animate random c) = S (armedLoops c) /\
  animationId (animate random c) <> 0%nat.
Proof.
  unfold armedLoops, animate, requestAnimationFrame.
  cbn [onService gameService animationId].
  destruct (updateGame_sameMotion random
              (set_frameRequests (frameRequests (gameService c) ++ [Animate])
                 (set_frameHandle (S (frameHandle (gameService c)))
                    (gameService c)))) as (_ & _ & _ & _ & Hq).
  rewrite Hq. cbn [frameRequests set_frameRequests].
  rewrite armed_snoc. cbn [isAnimateRequest]. split; [lia | discriminate].
Qed.

Lemma runCallback_armed (c : GameComponent.t) (cb : FrameCallback) :
  armedLoops (runCallback random sinPi c cb) =
    (armedLoops c + if isAnimateRequest cb then 1 else 0)%nat /\
  (animationId (runCallback random sinPi c cb) = 0%nat ->
   animationId c = 0%nat /\ isAnimateRequest cb = false) /\
  (isAnimateRequest cb = false ->
   animationId (runCallback random sinPi c cb) = animationId c).
Proof.
  destruct cb; cbn [runCallback isAnimateRequest].
  - unfold armedLoops, animateLaneChange, requestAnimationFrame.
    cbn [onService gameService animationId].
    split; [| auto].
    destruct (PrimFloat.ltb _ _); cbn [snd frameRequests set_player set_frameRequests
                              set_frameHandle];
      [rewrite armed_snoc; cbn [isAnimateRequest] |]; lia.
  - unfold armedLoops, animateJump, requestAnimationFrame.
    cbn [onService gameService animationId].
    split; [| auto].
    destruct (Qltb _ 1); cbn [snd frameRequests set_player set_isJumping
                              set_frameRequests set_frameHandle];
      [rewrite armed_snoc; cbn [isAnimateRequest] |]; lia.
  - destruct (animate_armed c) as [Ha Hi]. split; [lia |].
    split; [intros H; contradiction | discriminate].
Qed.

Lemma runCallbacks_armed (queue : list FrameCallback) (c : GameComponent.t) :
  armedLoops (fold_left (runCallback random sinPi) queue c) =
    (armedLoops c + List.length (filter isAnimateRequest queue))%nat /\
  (animationId (fold_left (runCallback random sinPi) queue c) = 0%nat ->
   animationId c = 0%nat /\ filter isAnimateRequest queue = []) /\
  (filter isAnimateRequest queue = [] ->
   animationId (fold_left (runCallback random sinPi) queue c) = animationId c).
Proof.
  revert c. induction queue as [|cb queue IH]; intros c; cbn [fold_left filter].
  - cbn. split; [lia | auto].
  - destruct (IH (runCallback random sinPi c cb)) as (IH1 & IH2 & IH3).
    destruct (runCallback_armed c cb) as (H1 & H2 & H3).
    split; [| split].
    + rewrite IH1, H1. destruct (isAnimateRequest cb); cbn [List.length]; lia.
    + intros H. destruct (IH2 H) as [Hi Hq]. destruct (H2 Hi) as [Hc Hcb].
      rewrite Hcb. auto.
    + destruct (isAnimateRequest cb); [discriminate |].
      intros Hq. rewrite (IH3 Hq). apply H3. reflexivity.
Qed.

Lemma frame_armed (c : GameComponent.t) :
  armedLoops (frame random sinPi c) = armedLoops c /\
  (animationId (frame random sinPi c) = 0%nat -> animationId c = 0%nat) /\
  (armedLoops c = 0%nat ->
   animationId (frame random sinPi c) = animationId c).
Proof.
  unfold frame.
  destruct (runCallbacks_armed (frameRequests (gameService c))
              (onService (set_frameRequests []) c)) as (H1 & H2 & H3).
  split; [| split].
  - rewrite H1. reflexivity.
  - intros H. apply (H2 H).
  - intros H. rewrite H3; [reflexivity |].
    apply length_zero_iff_nil. exact H.
Qed.

Lemma handleKeyDown_armed (key : string) (c : GameComponent.t) :
  armedLoops (GameComponent.handleKeyDown sinPi key c) = armedLoops c /\
  animationId (GameComponent.handleKeyDown sinPi key c) = animationId c.
Proof.
  split; [| reflexivity].
  unfold armedLoops, GameComponent.handleKeyDown.
  cbn [onService gameService].
  rewrite handleKeyDown_animate_requests. reflexivity.
Qed.

Lemma step_armed (c : GameComponent.t) (e : Event) :
  loopsTracked c ->
  armedLoops (step random sinPi c e) = loopStep (armedLoops c) e /\
  loopsTracked (step random sinPi c e).
Proof.
  unfold loopsTracked. intros Ht. destruct e; cbn [step loopStep].
  - destruct (frame_armed c) as (Ha & Hi & Hk). split; [exact Ha |].
    rewrite Ha. split.
    + intros H. apply Ht, Hi, H.
    + intros H. rewrite (Hk H). apply Ht, H.
  - destruct (handleKeyDown_armed key c) as [Ha Hi]. split; [exact Ha |].
    rewrite Ha, Hi. exact Ht.
  - unfold GameComponent.startGame.
    match goal with |- context [animate random ?c0] =>
      destruct (animate_armed c0) as [Ha Hi];
      change (armedLoops c0) with (armedLoops c) in Ha
    end.
    split; [exact Ha |]. rewrite Ha. split; intros H; [contradiction | discriminate].
  - unfold GameComponent.restartGame.
    match goal with |- context [onService ?f c] => set (c0 := onService f c) end.
    assert (Hq : armedLoops c0 = armedLoops c).
    { unfold armedLoops, c0. cbn [onService gameService].
      rewrite (proj2 (proj2 (restartGame_keeps_requests random (gameService c)))).
      reflexivity. }
    change (animationId c0) with (animationId c).
    destruct (Nat.eqb_spec (animationId c) 0) as [E | E].
    + destruct (animate_armed c0) as [Ha Hi].
      rewrite Ha, Hq, (proj1 Ht E). split; [reflexivity |].
      split; intros H; [contradiction | discriminate].
    + rewrite Hq. split.
      * destruct (armedLoops c) eqn:En; [| lia].
        exfalso. apply E, Ht. reflexivity.
      * change (animationId c0) with (animationId c). exact Ht.
Qed.

Lemma run_armed (es : list Event) (c : GameComponent.t) :
  loopsTracked c ->
  armedLoops (run random sinPi es c) = fold_left loopStep es (armedLoops c) /\
  loopsTracked (run random sinPi es c).
Proof.
  unfold run. revert c. induction es as [|e es IH]; intros c Ht; cbn [fold_left].
  - split; [reflexivity | exact Ht].
  - destruct (step_armed c e Ht) as [Ha Ht'].
    destruct (IH _ Ht') as [IHa IHt]. rewrite Ha in IHa. split; assumption.
Qed.

Lemma loopStep_no_start (es : list Event) (n : nat) :
  forallb (fun e => negb (isStart e)) es = true ->
  fold_left loopStep es n = (if existsb isRestart es then Nat.max 1 n else n).
Proof.
  revert n. induction es as [|e es IH]; intros n Hes; cbn [fold_left existsb].
  - reflexivity.
  - cbn [forallb] in Hes. apply andb_true_iff in Hes. destruct Hes as [He Hes].
    rewrite (IH _ Hes).
    destruct e; cbn [loopStep isRestart orb]; try reflexivity;
      [discriminate |].
    destruct (existsb isRestart es); lia.
Qed.

(** X6 -- the number of running copies of the main loop.  A refresh re-arms each
    copy once and a key arms none; every start click arms one more copy; a
    restart click arms one only if none is running.  So without a start
    click at most one copy runs, and after one start click followed by
    anything but start clicks exactly one copy runs. *)
Theorem main_loop_count (seed : nat) (es : list Event) :
  let c0 := ngAfterViewInit random seed in
  armedLoops (run random sinPi es c0) = fold_left loopStep es 0%nat /\
  (forallb (fun e => negb (isStart e)) es = true ->
   armedLoops (run random sinPi es c0) =
     if existsb isRestart es then 1%nat else 0%nat) /\
  (forallb (fun e => negb (isStart e)) es = true ->
   armedLoops (run random sinPi (StartClick :: es) c0) = 1%nat).
Proof.
  intros c0.
  assert (Ht : loopsTracked c0).
  { unfold loopsTracked, armedLoops, c0. cbn [ngAfterViewInit gameService animationId].
    destruct (initGame_fields random seed) as (_ & _ & _ & _ & _ & _ & _ & Hq).
    rewrite Hq. split; reflexivity. }
  assert (H0 : armedLoops c0 = 0%nat).
  { apply Ht. reflexivity. }
  assert (Hrun : forall l, armedLoops (run random sinPi l c0) =
                           fold_left loopStep l 0%nat).
  { intros l. rewrite (proj1 (run_armed l c0 Ht)), H0. reflexivity. }
  split; [apply Hrun |]. split.
  - intros Hes. rewrite Hrun, (loopStep_no_start es 0 Hes). reflexivity.
  - intros Hes. rewrite Hrun. cbn [fold_left loopStep].
    rewrite (loopStep_no_start es 1 Hes).
    destruct (existsb isRestart es); reflexivity.
Qed.

End MainLoop.

Lemma main_loop_count_witness :
  armedLoops
    (GameComponent.run sampleRandom sampleSinPi
       [GameComponent.StartClick; GameComponent.Refresh;
        GameComponent.RestartClick; GameComponent.Refresh]
       (GameComponent.ngAfterViewInit sampleRandom 0)) = 1%nat.
Proof.
  destruct (main_loop_count sampleRandom sampleSinPi 0
              [GameComponent.Refresh; GameComponent.RestartClick;
               GameComponent.Refresh]) as (_ & _ & H).
  exact (H eq_refl).
Defined.

(** ** Lane-change animation *)

Lemma sameLane_refl (s : GameService) : sameLane s s.
Proof. repeat split. Qed.

Lemma sameLane_trans (a b c : GameService) :
  sameLane a b -> sameLane b c -> sameLane a c.
Proof.
  unfold sameLane. intros (? & ? & ?) (? & ? & ?). repeat split; congruence.
Qed.

Lemma sameMotion_sameLane (s s' : GameService) :
  sameMotion s s' -> sameLane s s'.
Proof.
  unfold sameMotion, sameLane. intros (Hp & Hl & _ & _ & Hq).
  rewrite Hp, Hl, Hq. repeat split.
Qed.

Lemma laneRequests_snoc (queue : list FrameCallback) (cb : FrameCallback) :
  isLaneRequest cb = false -> laneRequests (queue ++ [cb]) = laneRequests queue.
Proof.
  intros H. unfold laneRequests. rewrite filter_app. cbn [filter].
  rewrite H. apply app_nil_r.
Qed.

Lemma animateJump_sameLane (sinPi : Q -> Q) (i p : Q) (s : GameService) :
  sameLane s (animateJump sinPi i p s).
Proof.
  unfold animateJump, requestAnimationFrame, sameLane.
  destruct (Qltb _ 1); cbn [snd playerLane player frameRequests set_player
    set_isJumping set_frameRequests set_frameHandle Vector3.x Vector3.set_y].
  - rewrite laneRequests_snoc by reflexivity. repeat split.
  - repeat split.
Qed.

Lemma jump_sameLane (sinPi : Q -> Q) (s : GameService) :
  sameLane s (jump sinPi s).
Proof.
  unfold jump. destruct (isJumping s); [apply sameLane_refl |].
  eapply sameLane_trans; [| apply animateJump_sameLane]. repeat split.
Qed.

Lemma handleKeyDown_sameLane (sinPi : Q -> Q) (key : string) (s : GameService) :
  keyIn key leftKeys || keyIn key rightKeys = false ->
  sameLane s (handleKeyDown sinPi key s).
Proof.
  intros H. apply orb_false_iff in H. destruct H as [Hl Hr].
  unfold handleKeyDown. rewrite Hl, Hr.
  destruct (_ || _); [apply sameLane_refl |].
  destruct (keyIn key jumpKeys); [apply jump_sameLane | apply sameLane_refl].
Qed.

(** The lane closure itself. *)
Lemma animateLaneChange_step (a b : Q) (p : float) (s : GameService) :
  laneRequests (frameRequests s) = [] ->
  let s' := animateLaneChange a b p s in
  playerLane s' = playerLane s /\
  if PrimFloat.ltb (PrimFloat.add p 0.1%float) 1%float
  then laneInFlight a b (PrimFloat.add p 0.1%float) s'
  else Vector3.x (player s') = b /\ laneRequests (frameRequests s') = [].
Proof.
  intros Hq. cbv zeta. unfold animateLaneChange, requestAnimationFrame,
    laneInFlight.
  destruct (PrimFloat.ltb (PrimFloat.add p 0.1%float) 1%float);
    cbn [snd playerLane player frameRequests set_player set_frameRequests
         set_frameHandle Vector3.x Vector3.set_x].
  - split; [reflexivity |]. split; [| reflexivity].
    unfold laneRequests in *. rewrite filter_app, Hq. reflexivity.
  - repeat split. exact Hq.
Qed.

Lemma moveLanes_starts (direction : Z) (s : GameService) :
  laneRequests (frameRequests s) = [] ->
  Z.max 0 (Z.min 2 (playerLane s + direction)) <> playerLane s ->
  laneInFlight (Vector3.x (player s))
    (lanes_at (Z.max 0 (Z.min 2 (playerLane s + direction))))
    (laneProgressAfter 0) (moveLanes direction s).
Proof.
  intros Hq Hn. unfold moveLanes.
  apply Z.eqb_neq in Hn. rewrite Hn. cbn [negb].
  match goal with |- laneInFlight ?a ?b _ (animateLaneChange _ _ _ ?t) =>
    pose proof (animateLaneChange_step a b 0%float t Hq) as H
  end.
  cbv zeta in H. destruct H as [_ H].
  assert (E : PrimFloat.ltb (PrimFloat.add 0%float 0.1%float) 1%float = true)
    by reflexivity.
  rewrite E in H. exact H.
Qed.

(** In doubles the first ten sums of 0.1 are below 1 (the tenth is
    0.99999999999999989) and the eleventh is not. *)
Lemma laneProgress_continues (k : nat) :
  (k < 9)%nat ->
  PrimFloat.ltb (PrimFloat.add (laneProgressAfter k) 0.1%float) 1%float = true.
Proof.
  intros H. do 9 (destruct k as [|k]; [reflexivity |]). lia.
Qed.

Lemma laneProgress_ends :
  PrimFloat.ltb (PrimFloat.add (laneProgressAfter 9) 0.1%float) 1%float = false.
Proof. reflexivity. Qed.

Section LaneFrames.

Variable random : nat -> Q.
Variable sinPi : Q -> Q.

Import GameComponent.

Lemma animate_sameLane (c : GameComponent.t) :
  sameLane (gameService c) (gameService (animate random c)).
Proof.
  unfold animate, requestAnimationFrame, onService. cbn [gameService].
  eapply sameLane_trans;
    [| apply sameMotion_sameLane, updateGame_sameMotion].
  unfold sameLane. cbn [playerLane player frameRequests set_frameRequests
                        set_frameHandle].
  rewrite laneRequests_snoc by reflexivity. repeat split.
Qed.

Lemma runCallback_sameLane (c : GameComponent.t) (cb : FrameCallback) :
  isLaneRequest cb = false ->
  sameLane (gameService c) (gameService (runCallback random sinPi c cb)).
Proof.
  destruct cb; cbn [runCallback onService gameService isLaneRequest];
    intros H.
  - discriminate.
  - apply animateJump_sameLane.
  - apply animate_sameLane.
Qed.

Lemma runCallbacks_sameLane (queue : list FrameCallback) (c : GameComponent.t) :
  laneRequests queue = [] ->
  sameLane (gameService c)
    (gameService (fold_left (runCallback random sinPi) queue c)).
Proof.
  revert c. induction queue as [|cb queue IH]; intros c H; cbn [fold_left].
  - apply sameLane_refl.
  - unfold laneRequests in H. cbn [filter] in H.
    destruct (isLaneRequest cb) eqn:E; [discriminate |].
    eapply sameLane_trans; [apply runCallback_sameLane, E | apply IH, H].
Qed.

(** One refresh of a lane change in flight. *)
Lemma frame_laneInFlight (a b : Q) (p : float) (c : GameComponent.t) :
  laneInFlight a b p (gameService c) ->
  let s' := gameService (frame random sinPi c) in
  playerLane s' = playerLane (gameService c) /\
  if PrimFloat.ltb (PrimFloat.add p 0.1%float) 1%float
  then laneInFlight a b (PrimFloat.add p 0.1%float) s'
  else Vector3.x (player s') = b /\ laneRequests (frameRequests s') = [].
Proof.
  intros [Hq Hx]. cbv zeta. unfold frame.
  destruct (filter_singleton _ _ _ Hq) as (l1 & l2 & Hl & H1 & H2).
  rewrite Hl, fold_left_app. cbn [fold_left].
  set (c0 := onService (set_frameRequests []) c).
  set (c1 := fold_left (runCallback random sinPi) l1 c0).
  destruct (runCallbacks_sameLane l1 c0 H1) as (Hl1 & _ & Hq1).
  fold c1 in Hl1, Hq1.
  cbn [c0 onService gameService playerLane frameRequests set_frameRequests
       laneRequests filter] in Hl1, Hq1.
  set (c2 := runCallback random sinPi c1 (AnimateLaneChange a b p)).
  destruct (runCallbacks_sameLane l2 c2 H2) as (Hl2 & Hx2 & Hq2).
  unfold laneInFlight. rewrite Hl2, Hx2, Hq2.
  pose proof (animateLaneChange_step a b p (gameService c1) Hq1) as Hs.
  cbv zeta in Hs. destruct Hs as [Hs1 Hs2].
  cbn [c2 runCallback onService gameService].
  rewrite Hs1, Hl1. split; [reflexivity |]. exact Hs2.
Qed.

Lemma step_laneInFlight
  (a b : Q) (p : float) (c : GameComponent.t) (e : Event) :
  laneInFlight a b p (gameService c) ->
  e <> Refresh -> laneQuiet e = true ->
  laneInFlight a b p (gameService (step random sinPi c e)) /\
  playerLane (gameService (step random sinPi c e)) = playerLane (gameService c).
Proof.
  intros [Hq Hx] Hr Hn. unfold laneInFlight.
  destruct e; cbn [step]; [congruence | | | discriminate].
  - cbn [laneQuiet] in Hn. apply negb_true_iff in Hn.
    destruct (handleKeyDown_sameLane sinPi key (gameService c) Hn)
      as (Ha & Hb & Hc).
    unfold GameComponent.handleKeyDown. cbn [onService gameService].
    rewrite Ha, Hb, Hc. repeat split; assumption.
  - unfold GameComponent.startGame.
    match goal with |- context [animate random ?c0] =>
      destruct (animate_sameLane c0) as (Ha & Hb & Hc)
    end.
    rewrite Ha, Hb, Hc. cbn [onService gameService]. repeat split; assumption.
Qed.

Lemma run_laneInFlight (a b : Q) (es : list Event) (k : nat) (c : GameComponent.t) :
  laneInFlight a b (laneProgressAfter k) (gameService c) ->
  forallb laneQuiet es = true ->
  (k + refreshes es <= 9)%nat ->
  laneInFlight a b (laneProgressAfter (k + refreshes es))
    (gameService (run random sinPi es c)) /\
  playerLane (gameService (run random sinPi es c)) = playerLane (gameService c).
Proof.
  unfold run. revert k c.
  induction es as [|e es IH]; intros k c Hinv Hes Hk.
  - cbn. rewrite Nat.add_0_r. split; [exact Hinv | reflexivity].
  - cbn [forallb] in Hes. apply andb_true_iff in Hes.
    destruct Hes as [He Hes]. cbn [fold_left].
    destruct e.
    + unfold refreshes in *. cbn [filter List.length] in *.
      rewrite Nat.add_succ_r in *.
      pose proof (frame_laneInFlight a b _ c Hinv) as Hf. cbv zeta in Hf.
      rewrite laneProgress_continues in Hf by lia. destruct Hf as [Hf1 Hf2].
      destruct (IH (S k) (step random sinPi c Refresh) Hf2 Hes) as [I1 I2];
        [lia |].
      split; [exact I1 |]. rewrite I2. exact Hf1.
    + destruct (step_laneInFlight a b _ c (KeyDown key) Hinv) as [S1 S2];
        [discriminate | exact He |].
      destruct (IH k _ S1 Hes Hk) as [I1 I2].
      split; [exact I1 | rewrite I2; exact S2].
    + destruct (step_laneInFlight a b _ c StartClick Hinv) as [S1 S2];
        [discriminate | exact He |].
      destruct (IH k _ S1 Hes Hk) as [I1 I2].
      split; [exact I1 | rewrite I2; exact S2].
    + discriminate.
Qed.

(** X7 -- a lane change started with no other one in flight: the lane index
    switches at once; through up to 9 refreshes (with jumps, unbound keys or
    start clicks in between) the player is at the linear interpolation
    between the old position and the new lane's, at the progress the double
    counter holds; the tenth sum of 0.1 is still below 1 in doubles, so it is
    the 10th refresh that puts the player exactly on the new lane and leaves
    no lane closure pending. *)
Theorem lane_change_completes
  (c : GameComponent.t) (direction : Z) (es : list Event) :
  laneRequests (frameRequests (gameService c)) = [] ->
  Z.max 0 (Z.min 2 (playerLane (gameService c) + direction))
    <> playerLane (gameService c) ->
  forallb laneQuiet es = true ->
  (refreshes es <= 9)%nat ->
  let s := gameService c in
  let newLane := Z.max 0 (Z.min 2 (playerLane s + direction)) in
  let startX := Vector3.x (player s) in
  let c1 := onService (moveLanes direction) c in
  let s1 := gameService (run random sinPi es c1) in
  playerLane s1 = newLane /\
  Vector3.x (player s1) =
    startX + (lanes_at newLane - startX)
             * doubleValue (laneProgressAfter (refreshes es)) /\
  laneRequests (frameRequests s1) =
    [AnimateLaneChange startX (lanes_at newLane)
       (laneProgressAfter (refreshes es))] /\
  (refreshes es = 9%nat ->
   let s2 := gameService (frame random sinPi (run random sinPi es c1)) in
   playerLane s2 = newLane /\
   Vector3.x (player s2) = lanes_at newLane /\
   laneRequests (frameRequests s2) = []).
Proof.
  intros Hq Hn Hes Hk s newLane startX c1 s1.
  pose proof (moveLanes_starts direction s Hq Hn) as H0.
  fold newLane startX in H0.
  destruct (run_laneInFlight startX (lanes_at newLane) es 0 c1 H0 Hes Hk)
    as [Hrun Hlane].
  cbn [Nat.add] in Hrun. fold s1 in Hrun, Hlane.
  assert (Hl1 : playerLane s1 = newLane).
  { rewrite Hlane. unfold c1. cbn [onService gameService].
    apply moveLanes_lane. }
  split; [exact Hl1 |]. split; [exact (proj2 Hrun) |].
  split; [exact (proj1 Hrun) |].
  intros E s2. rewrite E in Hrun.
  pose proof (frame_laneInFlight _ _ _ _ Hrun) as Hf. cbv zeta in Hf.
  rewrite laneProgress_ends in Hf. destruct Hf as [Hf1 Hf2].
  split; [| exact Hf2]. subst s2. rewrite Hf1. exact Hl1.
Qed.

End LaneFrames.

Lemma lane_change_completes_witness :
  let c1 := GameComponent.onService (moveLanes (-1)) runningGame in
  let c2 := GameComponent.frame sampleRandom sampleSinPi
              (GameComponent.run sampleRandom sampleSinPi nineRefreshes c1) in
  playerLane (GameComponent.gameService c2) = 0%Z /\
  Vector3.x (player (GameComponent.gameService c2)) = -2.
Proof.
  assert (Hn : Z.max 0 (Z.min 2
                 (playerLane (GameComponent.gameService runningGame) + -1))
               <> playerLane (GameComponent.gameService runningGame))
    by (vm_compute; discriminate).
  assert (Hk : (GameComponent.refreshes nineRefreshes <= 9)%nat)
    by (vm_compute; lia).
  destruct (lane_change_completes sampleRandom sampleSinPi runningGame (-1)
              nineRefreshes eq_refl Hn eq_refl Hk) as (_ & _ & _ & H).
  destruct (H eq_refl) as (Ha & Hb & _).
  exact (conj Ha Hb).
Defined.

(** ** Restart *)

Lemma GameService_ext (s t : GameService) :
  player s = player t -> obstacles s = obstacles t -> coins s = coins t ->
  score s = score t -> gameState s = gameState t ->
  playerLane s = playerLane t -> isJumping s = isJumping t ->
  speed s = speed t -> trackPosition s = trackPosition t ->
  randomCalls s = randomCalls t -> frameHandle s = frameHandle t ->
  frameRequests s = frameRequests t -> s = t.
Proof.
  destruct s, t. cbn. intros. subst. reflexivity.
Qed.

Section GeneratorSource.

Variable random : nat -> Q.

Lemma createObstacle_source (x z : Q) (s t : GameService) :
  sameSource s t ->
  sameSource (createObstacle random x z s) (createObstacle random x z t).
Proof.
  intros (Hr & Ho & Hc). unfold createObstacle, Math_random, sameSource.
  rewrite Hr.
  repeat match goal with |- context [if ?b then _ else _] => destruct b end;
    cbn [randomCalls obstacles coins set_obstacles set_randomCalls];
    rewrite ?Hr, ?Ho, ?Hc; repeat split.
Qed.

Lemma placeCoin_source (l : Z) (z : Q) (s t : GameService) (lane : Z) :
  sameSource s t ->
  sameSource (placeCoin random l z s lane) (placeCoin random l z t lane).
Proof.
  intros (Hr & Ho & Hc). unfold placeCoin, createCoin, Math_random, sameSource.
  cbn [randomCalls set_randomCalls]. rewrite Hr.
  repeat match goal with |- context [if ?b then _ else _] => destruct b end;
    cbn [randomCalls obstacles coins set_coins set_randomCalls];
    rewrite ?Hr, ?Ho, ?Hc; repeat split; assumption.
Qed.

Lemma placeCoins_source (l : Z) (z : Q) (ls : list Z) (s t : GameService) :
  sameSource s t ->
  sameSource (fold_left (placeCoin random l z) ls s)
             (fold_left (placeCoin random l z) ls t).
Proof.
  revert s t. induction ls as [|lane ls IH]; intros s t H; cbn [fold_left].
  - exact H.
  - apply IH, placeCoin_source, H.
Qed.

Lemma generateRow_source (z : Q) (s t : GameService) :
  sameSource s t ->
  sameSource (generateRow random z s) (generateRow random z t).
Proof.
  intros H. unfold generateRow, Math_random.
  rewrite (proj1 H). apply placeCoins_source, createObstacle_source.
  destruct H as (Hr & Ho & Hc). unfold sameSource.
  cbn [randomCalls obstacles coins set_randomCalls]. rewrite ?Hr, ?Ho, ?Hc.
  repeat split.
Qed.

Lemma generateRows_source (fuel : nat) (z : Q) (s t : GameService) :
  sameSource s t ->
  sameSource (generateRows random fuel z s) (generateRows random fuel z t).
Proof.
  revert z s t. induction fuel as [|fuel IH]; intros z s t H;
    cbn [generateRows]; [exact H |].
  destruct (Qltb _ z); [| exact H].
  unfold Math_random.
  pose proof (generateRow_source z s t H) as (Hr & Ho & Hc).
  rewrite Hr. apply IH. unfold sameSource.
  cbn [randomCalls obstacles coins set_randomCalls]. rewrite ?Hr, ?Ho, ?Hc.
  repeat split.
Qed.

Lemma generateObstaclesAndCoins_source (s t : GameService) :
  randomCalls s = randomCalls t ->
  sameSource (generateObstaclesAndCoins random s)
             (generateObstaclesAndCoins random t).
Proof.
  intros H. unfold generateObstaclesAndCoins. apply generateRows_source.
  unfold sameSource. cbn [randomCalls obstacles coins set_coins set_obstacles].
  rewrite H. repeat split.
Qed.

Lemma restartGame_fields (u : GameService) :
  let u' := restartGame random u in
  (score u' = 0 /\ speed u' = 0.2 /\ trackPosition u' = 0 /\
   playerLane u' = 1%Z /\ isJumping u' = false /\
   player u' = Vector3.mk 0 0 0 /\ gameState u' = mkGameState false true) /\
  sameSource u' (generateObstaclesAndCoins random u) /\
  (frameRequests u' = frameRequests u /\ frameHandle u' = frameHandle u).
Proof.
  cbv zeta. unfold restartGame.
  match goal with |- context [generateObstaclesAndCoins random ?t] =>
    set (base := t);
    destruct (generateObstaclesAndCoins_same random base)
      as ((Hp & Hl & Hj & Hh & Hq) & (Hs & Ht) & (Hsc & _));
    pose proof (generateObstaclesAndCoins_source base u eq_refl) as Hsrc
  end.
  cbn [score speed trackPosition playerLane isJumping player gameState
       frameRequests frameHandle set_gameState].
  rewrite Hp, Hl, Hj, Hh, Hq, Hs, Ht, Hsc.
  split; [repeat split |]. split; [| split; reflexivity].
  unfold sameSource in *.
  cbn [randomCalls obstacles coins set_gameState]. exact Hsrc.
Qed.

(** X8 -- [restartGame] from any state: the run state, the track and the
    player are at their initial values, the lap is the one the generator
    lays out from the current random cursor, and the frame queue is left as
    it is.  Nothing else of the previous run survives: two states with the
    same random cursor and frame queue restart into the same state. *)
Theorem restartGame_resets (s : GameService) :
  let s' := restartGame random s in
  (score s' = 0 /\ speed s' = 0.2 /\ trackPosition s' = 0 /\
   playerLane s' = 1%Z /\ isJumping s' = false /\
   player s' = Vector3.mk 0 0 0 /\ phase s' = Active) /\
  (obstacles s' = obstacles (generateObstaclesAndCoins random s) /\
   coins s' = coins (generateObstaclesAndCoins random s) /\
   randomCalls s' = randomCalls (generateObstaclesAndCoins random s)) /\
  (frameRequests s' = frameRequests s /\ frameHandle s' = frameHandle s) /\
  (forall t : GameService,
     randomCalls t = randomCalls s -> frameRequests t = frameRequests s ->
     frameHandle t = frameHandle s ->
     restartGame random t = restartGame random s).
Proof.
  intros s'. destruct (restartGame_fields s) as (Ha & (Hr & Ho & Hc) & Hf).
  fold s' in Ha, Hr, Ho, Hc, Hf.
  split.
  { destruct Ha as (H1 & H2 & H3 & H4 & H5 & H6 & H7).
    assert (H8 : phase s' = Active) by (unfold phase; rewrite H7; reflexivity).
    repeat split; assumption. }
  split; [repeat split; assumption |]. split; [exact Hf |].
  intros t Hrt Hqt Hht.
  destruct (restartGame_fields t) as (Ta & (Tr & To & Tc) & (Tq & Th)).
  destruct (generateObstaclesAndCoins_source t s Hrt) as (Gr & Go & Gc).
  destruct Ha as (H1 & H2 & H3 & H4 & H5 & H6 & H7).
  destruct Ta as (T1 & T2 & T3 & T4 & T5 & T6 & T7).
  destruct Hf as (Hq & Hh).
  apply GameService_ext; fold s'; congruence.
Qed.

End GeneratorSource.

Lemma restartGame_resets_witness :
  restartGame sampleRandom wornOut =
  restartGame sampleRandom
    (mkGameService (Vector3.mk 0 0 0) [] [] 0 (mkGameState false false)
       1 false 0.2 0 40 9 [Animate; AnimateJump 0 0.4]).
Proof.
  destruct (restartGame_resets sampleRandom
              (mkGameService (Vector3.mk 0 0 0) [] [] 0
                 (mkGameState false false) 1 false 0.2 0 40 9
                 [Animate; AnimateJump 0 0.4])) as (_ & _ & _ & H).
  exact (H wornOut eq_refl eq_refl eq_refl).
Defined.

(** ** What the generator places *)

Lemma lanes_at_in (lane : Z) :
  (0 <= lane <= 2)%Z -> In (lanes_at lane) lanes.
Proof.
  intros H.
  assert (E : lane = 0%Z \/ lane = 1%Z \/ lane = 2%Z) by lia.
  destruct E as [-> | [-> | ->]]; cbn; auto.
Qed.

Lemma lanes_at_apart (a b : Z) :
  (0 <= a <= 2)%Z -> (0 <= b <= 2)%Z -> a <> b ->
  2 <= Qabs (lanes_at a - lanes_at b).
Proof.
  intros Ha Hb Hn.
  assert (Ea : a = 0%Z \/ a = 1%Z \/ a = 2%Z) by lia.
  assert (Eb : b = 0%Z \/ b = 1%Z \/ b = 2%Z) by lia.
  destruct Ea as [-> | [-> | ->]]; destruct Eb as [-> | [-> | ->]];
    try congruence; vm_compute; discriminate.
Qed.

Section Placement.

Variable random : nat -> Q.
Hypothesis random_range : forall n, 0 <= random n /\ random n < 1.

Lemma createObstacle_shape (x z : Q) (s : GameService) :
  exists o,
    obstacles (createObstacle random x z s) = obstacles s ++ [o] /\
    coins (createObstacle random x z s) = coins s /\
    Vector3.x (position o) = x /\ Vector3.z (position o) = z /\
    (kind o = Rock /\ Vector3.y (position o) = 0.4 \/
     kind o = Log /\ Vector3.y (position o) = 0.4 \/
     kind o = Statue /\ Vector3.y (position o) = 0.2).
Proof.
  unfold createObstacle, Math_random.
  repeat match goal with |- context [if ?b then _ else _] => destruct b end;
    eexists; cbn [obstacles coins set_obstacles set_randomCalls kind position
                  Vector3.x Vector3.y Vector3.z];
    repeat split; auto.
Qed.

Lemma placeCoin_coins (l : Z) (z : Q) (s : GameService) (lane : Z) :
  exists cs,
    coins (placeCoin random l z s lane) = coins s ++ cs /\
    (List.length cs <= 1)%nat /\
    (lane = l -> cs = []) /\
    Forall (fun c => kind c = Coin /\ Vector3.y (position c) = 0.8 /\
                     Vector3.x (position c) = lanes_at lane /\
                     z - 3 < Vector3.z (position c) /\
                     Vector3.z (position c) <= z) cs.
Proof.
  unfold placeCoin, createCoin, Math_random.
  destruct (Z.eqb_spec lane l) as [E | E]; cbn [negb].
  - exists []. rewrite app_nil_r. repeat split; auto.
  - destruct (Qltb 0.3 _).
    + eexists. cbn [coins set_coins set_randomCalls randomCalls].
      split; [reflexivity |]. split; [cbn; lia |].
      split; [intros H; contradiction |].
      constructor; [| constructor].
      cbn [kind position Vector3.x Vector3.y Vector3.z].
      match goal with |- context [random ?n] =>
        destruct (random_range n) as [H0 H1]
      end.
      repeat split; lra.
    + exists []. cbn [coins set_randomCalls]. rewrite app_nil_r.
      repeat split; auto.
Qed.

Lemma generateRow_shape (z : Q) (s : GameService) :
  exists o cs lane,
    (0 <= lane <= 2)%Z /\
    obstacles (generateRow random z s) = obstacles s ++ [o] /\
    coins (generateRow random z s) = coins s ++ cs /\
    Vector3.x (position o) = lanes_at lane /\ Vector3.z (position o) = z /\
    (kind o = Rock /\ Vector3.y (position o) = 0.4 \/
     kind o = Log /\ Vector3.y (position o) = 0.4 \/
     kind o = Statue /\ Vector3.y (position o) = 0.2) /\
    (List.length cs <= 2)%nat /\
    Forall (fun c => kind c = Coin /\ Vector3.y (position c) = 0.8 /\
                     (exists l, (0 <= l <= 2)%Z /\ l <> lane /\
                                Vector3.x (position c) = lanes_at l) /\
                     z - 3 < Vector3.z (position c) /\
                     Vector3.z (position c) <= z) cs.
Proof.
  unfold generateRow, Math_random.
  set (lane := Qfloor (random (randomCalls s) * 3)).
  assert (Hlane : (0 <= lane <= 2)%Z) by apply random_lane, random_range.
  rewrite placeCoins_obstacles.
  destruct (createObstacle_shape (lanes_at lane) z
              (set_randomCalls (S (randomCalls s)) s))
    as (o & Ho & Hc & Hx & Hz & Hk).
  set (s0 := createObstacle random (lanes_at lane) z _) in *.
  cbn [fold_left].
  destruct (placeCoin_coins lane z s0 0) as (c0 & E0 & L0 & N0 & F0).
  set (s1 := placeCoin random lane z s0 0) in *.
  destruct (placeCoin_coins lane z s1 1) as (c1 & E1 & L1 & N1 & F1).
  set (s2 := placeCoin random lane z s1 1) in *.
  destruct (placeCoin_coins lane z s2 2) as (c2 & E2 & L2 & N2 & F2).
  exists o, (c0 ++ c1 ++ c2), lane.
  split; [exact Hlane |]. split; [exact Ho |].
  split; [rewrite E2, E1, E0, Hc; cbn [coins set_randomCalls];
          rewrite <- !app_assoc; reflexivity |].
  split; [exact Hx |]. split; [exact Hz |]. split; [exact Hk |].
  assert (Hsome : lane = 0%Z \/ lane = 1%Z \/ lane = 2%Z) by lia.
  split.
  - rewrite !length_app.
    destruct Hsome as [E | [E | E]];
      [rewrite (N0 (eq_sym E)) | rewrite (N1 (eq_sym E))
       | rewrite (N2 (eq_sym E))]; cbn [List.length]; lia.
  - assert (Hlift : forall i cs, (0 <= i <= 2)%Z -> (i = lane -> cs = []) ->
        Forall (fun c => kind c = Coin /\ Vector3.y (position c) = 0.8 /\
                         Vector3.x (position c) = lanes_at i /\
                         z - 3 < Vector3.z (position c) /\
                         Vector3.z (position c) <= z) cs ->
        Forall (fun c => kind c = Coin /\ Vector3.y (position c) = 0.8 /\
                         (exists l, (0 <= l <= 2)%Z /\ l <> lane /\
                                    Vector3.x (position c) = lanes_at l) /\
                         z - 3 < Vector3.z (position c) /\
                         Vector3.z (position c) <= z) cs).
    { intros i cs Hi Hn HF.
      destruct (Z.eq_dec i lane) as [E | E];
        [rewrite (Hn E); constructor |].
      eapply Forall_impl; [| exact HF]. cbv beta.
      intros c (Ka & Kb & Kc & Kd & Ke).
      split; [exact Ka |]. split; [exact Kb |]. split; [| split; assumption].
      exists i. auto. }
    apply Forall_app. split; [apply (Hlift 0%Z); [lia | assumption ..] |].
    apply Forall_app. split; [apply (Hlift 1%Z) | apply (Hlift 2%Z)];
      first [lia | assumption].
Qed.

(** X9 -- one row of the generator: exactly one obstacle, and at most two coins,
    each on a lane other than the obstacle's and less than 3 behind the
    row. *)
Theorem generated_row_coins (z : Q) (s : GameService) :
  exists o cs,
    obstacles (generateRow random z s) = obstacles s ++ [o] /\
    coins (generateRow random z s) = coins s ++ cs /\
    (List.length cs <= 2)%nat /\
    Forall (fun c => kind c = Coin /\
                     In (Vector3.x (position c)) lanes /\
                     ~ Vector3.x (position c) == Vector3.x (position o) /\
                     z - 3 < Vector3.z (position c) /\
                     Vector3.z (position c) <= z) cs.
Proof.
  destruct (generateRow_shape z s)
    as (o & cs & lane & Hl & Ho & Hc & Hx & _ & _ & Hlen & HF).
  exists o, cs. split; [exact Ho |]. split; [exact Hc |].
  split; [exact Hlen |].
  eapply Forall_impl; [| exact HF]. cbv beta.
  intros c (Ka & _ & (l & Hl' & Hn & Hxc) & Kd & Ke).
  split; [exact Ka |]. rewrite Hxc, Hx.
  split; [apply lanes_at_in, Hl' |]. split; [| split; assumption].
  intros E. pose proof (lanes_at_apart l lane Hl' Hl Hn) as Hd.
  rewrite E in Hd.
  assert (Hz : lanes_at lane - lanes_at lane == 0) by ring.
  rewrite Hz in Hd. vm_compute in Hd. apply Hd. reflexivity.
Qed.

Lemma generateRows_placed (fuel : nat) (z : Q) (s : GameService) :
  z <= -15 ->
  Forall obstaclePlaced (obstacles s) -> Forall coinPlaced (coins s) ->
  Forall obstaclePlaced (obstacles (generateRows random fuel z s)) /\
  Forall coinPlaced (coins (generateRows random fuel z s)) /\
  exists rest, obstacles (generateRows random fuel z s) = obstacles s ++ rest.
Proof.
  revert z s. induction fuel as [|fuel IH]; intros z s Hz Ho Hc;
    cbn [generateRows].
  - split; [exact Ho |]. split; [exact Hc |]. exists []. symmetry. apply app_nil_r.
  - destruct (Qltb (- trackLength + 15) z) eqn:Ht.
    2:{ split; [exact Ho |]. split; [exact Hc |]. exists [].
        symmetry. apply app_nil_r. }
    apply Qltb_lt in Ht. unfold Math_random.
    destruct (generateRow_shape z s)
      as (o & cs & lane & Hl & Eo & Ec & Hx & Hzo & Hk & _ & HF).
    destruct (random_range (randomCalls (generateRow random z s))) as [H0 _].
    match goal with |- context [generateRows random fuel ?z' ?s'] =>
      destruct (IH z' s') as (I1 & I2 & rest & I3)
    end.
    + lra.
    + cbn [obstacles set_randomCalls]. rewrite Eo. apply Forall_app.
      split; [exact Ho |]. constructor; [| constructor].
      unfold obstaclePlaced. rewrite Hx, Hzo.
      split; [exact Hk |]. split; [apply lanes_at_in, Hl |]. split; lra.
    + cbn [coins set_randomCalls]. rewrite Ec. apply Forall_app.
      split; [exact Hc |]. eapply Forall_impl; [| exact HF]. cbv beta.
      intros c (Ka & Kb & (l & Hl' & _ & Kx) & Kd & Ke).
      unfold coinPlaced. rewrite Kx.
      split; [exact Ka |]. split; [exact Kb |].
      split; [apply lanes_at_in, Hl' |]. split; lra.
    + split; [exact I1 |]. split; [exact I2 |].
      cbn [obstacles set_randomCalls] in I3. rewrite Eo in I3.
      exists ([o] ++ rest). rewrite I3, <- app_assoc. reflexivity.
Qed.

Lemma generateRows_prefix (fuel : nat) (z : Q) (s : GameService) :
  exists rest, obstacles (generateRows random fuel z s) = obstacles s ++ rest.
Proof.
  revert z s. induction fuel as [|fuel IH]; intros z s; cbn [generateRows].
  - exists []. symmetry. apply app_nil_r.
  - destruct (Qltb _ z); [| exists []; symmetry; apply app_nil_r].
    unfold Math_random.
    destruct (generateRow_shape z s) as (o & cs & lane & _ & Eo & _).
    match goal with |- context [generateRows random fuel ?z' ?s'] =>
      destruct (IH z' s') as (rest & E)
    end.
    cbn [obstacles set_randomCalls] in E. rewrite Eo in E.
    exists ([o] ++ rest). rewrite E, <- app_assoc. reflexivity.
Qed.

Lemma generateRows_first (fuel : nat) (z : Q) (s : GameService) :
  Qltb (- trackLength + 15) z = true -> obstacles s = [] ->
  exists o rest,
    obstacles (generateRows random (S fuel) z s) = o :: rest /\
    Vector3.z (position o) = z.
Proof.
  intros Ht Hs. cbn [generateRows]. rewrite Ht. unfold Math_random.
  destruct (generateRow_shape z s)
    as (o & cs & lane & _ & Eo & _ & _ & Hzo & _).
  match goal with |- context [generateRows random fuel ?z' ?s'] =>
    destruct (generateRows_prefix fuel z' s') as (rest & E)
  end.
  cbn [obstacles set_randomCalls] in E. rewrite Eo, Hs in E.
  exists o, rest. split; [exact E | exact Hzo].
Qed.




Lemma generated_placed (s : GameService) (o : Object3D) :
  In o (obstacles (generateObstaclesAndCoins random s)
        ++ coins (generateObstaclesAndCoins random s)) ->
  obstaclePlaced o \/ coinPlaced o.
Proof.
  unfold generateObstaclesAndCoins.
  destruct (generateRows_placed rowFuel (-15)
              (set_coins [] (set_obstacles [] s))) as (H1 & H2 & _);
    [apply Qle_refl | constructor | constructor |].
  intros Hin. apply in_app_or in Hin. destruct Hin as [Hin | Hin].
  - left. exact (proj1 (Forall_forall _ _) H1 o Hin).
  - right. exact (proj1 (Forall_forall _ _) H2 o Hin).
Qed.

(** X10 -- every obstacle of a generated lap is a rock or a log at height
    0.4 or a statue at 0.2, every coin is at height 0.8; all are on one of
    the three lanes and between the lead-in and the lead-out of the track.
    The lap is never empty: its first obstacle is at exactly z = -15. *)
Theorem generated_entities_placed (s : GameService) :
  let lap := generateObstaclesAndCoins random s in
  Forall obstaclePlaced (obstacles lap) /\
  Forall coinPlaced (coins lap) /\
  exists o rest, obstacles lap = o :: rest /\ Vector3.z (position o) = -15.
Proof.
  intros lap. subst lap. unfold generateObstaclesAndCoins.
  set (s0 := set_coins [] (set_obstacles [] s)).
  destruct (generateRows_placed rowFuel (-15) s0) as (H1 & H2 & _);
    [apply Qle_refl | constructor | constructor |].
  split; [exact H1 |]. split; [exact H2 |].
  apply (generateRows_first 94 (-15) s0); reflexivity.
Qed.

End Placement.

Lemma generated_row_coins_witness :
  exists o cs,
    obstacles (generateRow sampleRandom (-15) (newGameService 0)) = [o] /\
    coins (generateRow sampleRandom (-15) (newGameService 0)) = cs /\
    (List.length cs <= 2)%nat.
Proof.
  destruct (generated_row_coins sampleRandom sampleRandom_range (-15)
              (newGameService 0)) as (o & cs & Ho & Hc & Hl & _).
  exists o, cs. exact (conj Ho (conj Hc Hl)).
Defined.

Lemma generated_entities_placed_witness :
  Forall obstaclePlaced (obstacles sampleLap) /\
  Forall coinPlaced (coins sampleLap).
Proof.
  destruct (generated_entities_placed sampleRandom sampleRandom_range
              (newGameService 0)) as (Ho & Hc & _).
  exact (conj Ho Hc).
Defined.

(** ** Track position and the recycled lap *)

Section Recycle.

Variable random : nat -> Q.
Variable sinPi : Q -> Q.

Import GameComponent.


End Recycle.


(** ** Collisions of a grounded player, lane by lane *)

Ltac closed_Q :=
  split; intros HQ;
  first [ vm_compute; reflexivity
        | exfalso; vm_compute in HQ; discriminate
        | exfalso; vm_compute in HQ; apply HQ; reflexivity ].

(** X11 -- a grounded player standing on a lane overlaps a generated obstacle or
    coin, however far it has moved along the track, exactly when it is on
    the same lane and less than 0.65 away along the track: the vertical test
    never saves a grounded player, and entities of the other lanes are out
    of reach. *)
Theorem grounded_hit_by_lane
  (s : GameService) (o : Object3D) (lane : Z) (dz : Q) :
  isJumping s = false ->
  Vector3.y (player s) == 0 ->
  (0 <= lane <= 2)%Z ->
  Vector3.x (player s) == lanes_at lane ->
  obstaclePlaced o \/ coinPlaced o ->
  (isPlayerColliding s (advance dz o) = true <->
   Vector3.x (position o) == lanes_at lane /\
   Qabs (Vector3.z (player s) - (Vector3.z (position o) + dz)) < 0.65).
Proof.
  intros Hj Hy Hl Hx Hp.
  assert (Hxo : In (Vector3.x (position o)) lanes)
    by (destruct Hp as [(_ & H & _) | (_ & _ & H & _)]; exact H).
  assert (Hyo : Vector3.y (position o) = 0.4 \/ Vector3.y (position o) = 0.2 \/
                Vector3.y (position o) = 0.8).
  { destruct Hp as [([(_ & H) | [(_ & H) | (_ & H)]] & _) | (_ & H & _)]; auto. }
  rewrite isPlayerColliding_true. unfold playerHeight. rewrite Hj.
  cbn [advance position Vector3.x Vector3.y Vector3.z Vector3.set_z].
  assert (Ey : Qabs (Vector3.y (player s) - Vector3.y (position o))
               < (1.5 + 1) / 2).
  { rewrite Hy. destruct Hyo as [-> | [-> | ->]]; vm_compute; reflexivity. }
  assert (Ex : Qabs (Vector3.x (player s) - Vector3.x (position o))
               < (0.7 + 0.8) / 2 <->
               Vector3.x (position o) == lanes_at lane).
  { rewrite Hx.
    assert (E : lane = 0%Z \/ lane = 1%Z \/ lane = 2%Z) by lia.
    cbn [lanes In] in Hxo.
    destruct E as [-> | [-> | ->]];
      destruct Hxo as [<- | [<- | [<- | []]]]; closed_Q. }
  assert (Ez : (0.5 + 0.8) / 2 == 0.65) by reflexivity.
  rewrite Ez. tauto.
Qed.

Lemma grounded_hit_by_lane_witness :
  isPlayerColliding groundedAtOrigin
    (advance 14.5 (mkObject3D Rock (Vector3.mk 0 0.4 (-15)) 0)) = true.
Proof.
  assert (Hp : obstaclePlaced (mkObject3D Rock (Vector3.mk 0 0.4 (-15)) 0) \/
               coinPlaced (mkObject3D Rock (Vector3.mk 0 0.4 (-15)) 0)).
  { left. unfold obstaclePlaced. cbn [kind position Vector3.x Vector3.y Vector3.z].
    split; [left; split; reflexivity |].
    split; [cbn; auto |]. split; [vm_compute; reflexivity | vm_compute; discriminate]. }
  assert (Hl : (0 <= 1 <= 2)%Z) by lia.
  assert (Hy : Vector3.y (player groundedAtOrigin) == 0) by reflexivity.
  assert (Hx : Vector3.x (player groundedAtOrigin) == lanes_at 1) by reflexivity.
  apply (proj2 (grounded_hit_by_lane groundedAtOrigin
                  (mkObject3D Rock (Vector3.mk 0 0.4 (-15)) 0) 1 14.5
                  eq_refl Hy Hl Hx Hp)).
  split; [reflexivity | vm_compute; reflexivity].
Defined.

(** ** A fresh lap is out of reach *)

Lemma placed_out_of_reach (s : GameService) (o : Object3D) (dz : Q) :
  Vector3.z (player s) == 0 ->
  obstaclePlaced o \/ coinPlaced o ->
  dz <= 14.35 ->
  isPlayerColliding s (advance dz o) = false.
Proof.
  intros Hz Hp Hd.
  assert (Hzo : Vector3.z (position o) <= -15)
    by (destruct Hp as [(_ & _ & _ & H) | (_ & _ & _ & _ & H)]; exact H).
  apply not_true_is_false. rewrite isPlayerColliding_true.
  cbn [advance position Vector3.z Vector3.set_z].
  intros (_ & H & _). rewrite Hz in H.
  assert (E : (0.5 + 0.8) / 2 == 0.65) by reflexivity.
  rewrite E in H. revert H. apply Qabs_case; intros Hc H; lra.
Qed.

Section FreshLap.

Variable random : nat -> Q.
Hypothesis random_range : forall n, 0 <= random n /\ random n < 1.

(** X12 -- right after [restartGame], and in the state [initGame] builds, no
    obstacle and no coin of the lap overlaps the player, and none can before
    it has moved more than 14.35 towards the player. *)
Theorem fresh_lap_out_of_reach (s : GameService) (seed : nat) :
  let s1 := restartGame random s in
  let s0 := initGame random (newGameService seed) in
  (forall (o : Object3D) (dz : Q),
     In o (obstacles s1 ++ coins s1) -> dz <= 14.35 ->
     isPlayerColliding s1 (advance dz o) = false) /\
  (forall (o : Object3D) (dz : Q),
     In o (obstacles s0 ++ coins s0) -> dz <= 14.35 ->
     isPlayerColliding s0 (advance dz o) = false).
Proof.
  intros s1 s0. split; intros o dz Hin Hd.
  - destruct (restartGame_fields random s)
      as ((_ & _ & _ & _ & _ & Hp & _) & (_ & Eo & Ec) & _).
    fold s1 in Hp, Eo, Ec. rewrite Eo, Ec in Hin.
    apply placed_out_of_reach; [rewrite Hp; reflexivity | | exact Hd].
    apply (generated_placed random random_range s o Hin).
  - apply placed_out_of_reach; [reflexivity | | exact Hd].
    apply (generated_placed random random_range (newGameService seed) o Hin).
Qed.

End FreshLap.

Lemma fresh_lap_out_of_reach_witness :
  forallb (fun o => negb (isPlayerColliding sampleInit (advance 14 o)))
    (obstacles sampleInit ++ coins sampleInit) = true.
Proof.
  assert (Hd : 14 <= 14.35) by (vm_compute; discriminate).
  apply forallb_forall. intros o Hin. apply negb_true_iff.
  exact (proj2 (fresh_lap_out_of_reach sampleRandom sampleRandom_range
                  (newGameService 0) 0) o 14 Hin Hd).
Defined.

(** ** Lanes, there and back *)

(** X13 -- a step right followed by a step left brings the player back to the lane
    it started from, except from the rightmost lane, where the step right
    is lost to the clamp; and symmetrically. *)
Theorem moveLanes_back_and_forth (s : GameService) :
  (0 <= playerLane s <= 2)%Z ->
  playerLane (moveLanes (-1) (moveLanes 1 s)) =
    (if (playerLane s =? 2)%Z then 1%Z else playerLane s) /\
  playerLane (moveLanes 1 (moveLanes (-1) s)) =
    (if (playerLane s =? 0)%Z then 1%Z else playerLane s).
Proof.
  intros H. rewrite !moveLanes_lane.
  destruct (Z.eqb_spec (playerLane s) 2), (Z.eqb_spec (playerLane s) 0); lia.
Qed.

Lemma moveLanes_back_and_forth_witness :
  playerLane (moveLanes (-1) (moveLanes 1 groundedAtOrigin)) = 1%Z /\
  playerLane (moveLanes (-1) (moveLanes 1 (set_playerLane 2 groundedAtOrigin)))
    = 1%Z.
Proof.
  assert (H1 : (0 <= playerLane groundedAtOrigin <= 2)%Z)
    by (vm_compute; split; discriminate).
  assert (H2 : (0 <= playerLane (set_playerLane 2 groundedAtOrigin) <= 2)%Z)
    by (vm_compute; split; discriminate).
  exact (conj (proj1 (moveLanes_back_and_forth groundedAtOrigin H1))
              (proj1 (moveLanes_back_and_forth
                        (set_playerLane 2 groundedAtOrigin) H2))).
Defined.

(** ** Speed *)

(** X14 -- along every run of the game the speed is at least its base value 0.2. *)
Theorem speed_never_below_base
  (random : nat -> Q) (sinPi : Q -> Q) (seed : nat)
  (es : list GameComponent.Event) :
  0.2 <= speed (GameComponent.gameService
                  (GameComponent.run random sinPi es
                     (GameComponent.ngAfterViewInit random seed))).
Proof.
  pose proof (ngAfterViewInit_trackInv random seed) as H0.
  destruct (run_trackInv random sinPi es _ H0) as (_ & _ & Hv).
  exact Hv.
Qed.
